(** * Tenant resolution middleware: a shallow embedding and its properties

    The development follows the middleware module leaf-first:
    - [JsString]: the string methods the module calls
      ([split], [includes], [indexOf], [substring], [toLowerCase]);
    - [Regex]: a small regular-expression matcher, enough for the pattern
      of [isValidSubdomain];
    - [Tenant]: requests, the tenant cache, the remote store seen as an
      interface, and the functions [extractSubdomain], [isValidSubdomain],
      [getTenantInfo], [setTenantContext], [resolveTenant] and the cache
      administration functions.

    Strings are sequences of code units below 256, which is how the HTTP
    layer delivers header values.  Time stamps are integers (milliseconds).
    Calls run one after the other: a call is modelled from its first
    statement to its return, with the remote store answering in between.
    [resolveTenant] is modelled as it runs when no [next] callback is
    passed; what the module prints on the console is left out. *)

From Stdlib Require Import ZArith Ascii String List Bool Lia.
From stdpp Require Import base option gmap strings.

Local Open Scope Z_scope.

(* ===================================================================== *)
(** ** String methods *)
(* ===================================================================== *)

Module JsString.

(** [s.split(sep)] for a one-character separator.  The result is never
    empty: the empty string splits into one empty piece. *)
Fixpoint split (sep : ascii) (s : string) : list string :=
  match s with
  | EmptyString => [EmptyString]
  | String c rest =>
      if Ascii.eqb c sep then EmptyString :: split sep rest
      else match split sep rest with
           | p :: ps => String c p :: ps
           | [] => [String c EmptyString]
           end
  end.

(** [s.includes(needle)] *)
Fixpoint includes (s needle : string) : bool :=
  String.prefix needle s ||
  match s with
  | EmptyString => false
  | String _ rest => includes rest needle
  end.

(** [s.indexOf(c)] for a one-character needle: the first position of
    [c], or [-1]. *)
Fixpoint indexOf (c : ascii) (s : string) : Z :=
  match s with
  | EmptyString => -1
  | String d rest =>
      if Ascii.eqb d c then 0
      else let i := indexOf c rest in
           if i <? 0 then -1 else i + 1
  end.

(** [s.substring(0, n)] *)
Definition substring0 (n : Z) (s : string) : string :=
  String.substring 0 (Z.to_nat n) s.

(** [toLowerCase] on one code unit below 256: the letters A-Z and the
    Latin-1 capitals 0xC0-0xDE (without the multiplication sign 0xD7)
    move up by 32. *)
Definition lowerChar (c : ascii) : ascii :=
  let n := nat_of_ascii c in
  if ((65 <=? n)%nat && (n <=? 90)%nat)
     || ((192 <=? n)%nat && (n <=? 222)%nat && negb (n =? 215)%nat)
  then ascii_of_nat (n + 32) else c.

Fixpoint toLowerCase (s : string) : string :=
  match s with
  | EmptyString => EmptyString
  | String c rest => String (lowerChar c) (toLowerCase rest)
  end.

(** [list.includes(s)] on a list of strings *)
Definition listIncludes (l : list string) (s : string) : bool :=
  existsb (String.eqb s) l.

(** Joining pieces with a separator, the inverse of [split]. *)
Fixpoint join (sep : ascii) (l : list string) : string :=
  match l with
  | [] => EmptyString
  | [p] => p
  | p :: ps => p +:+ String sep (join sep ps)
  end.

Fixpoint hasChar (c : ascii) (s : string) : bool :=
  match s with
  | EmptyString => false
  | String d rest => Ascii.eqb d c || hasChar c rest
  end.

End JsString.

(* ===================================================================== *)
(** ** Regular expressions *)
(* ===================================================================== *)

Module Regex.

(** The fragment of the pattern language that the module uses:
    character classes given by ranges, sequencing, alternation, the
    empty pattern and iteration.  [r?] is [Alt r Eps]. *)
Inductive regex : Type :=
| Void : regex
| Eps : regex
| Class : list (ascii * ascii) -> regex
| Cat : regex -> regex -> regex
| Alt : regex -> regex -> regex
| Star : regex -> regex.

Definition Opt (r : regex) : regex := Alt r Eps.

Definition inRange (c : ascii) (rg : ascii * ascii) : bool :=
  (nat_of_ascii (fst rg) <=? nat_of_ascii c)%nat
  && (nat_of_ascii c <=? nat_of_ascii (snd rg))%nat.

(** The other case of an ASCII letter; every other code unit is its own
    canonical form (without the unicode flag no code unit above 127 is
    identified with one below 128). *)
Definition swapCase (c : ascii) : ascii :=
  let n := nat_of_ascii c in
  if (65 <=? n)%nat && (n <=? 90)%nat then ascii_of_nat (n + 32)
  else if (97 <=? n)%nat && (n <=? 122)%nat then ascii_of_nat (n - 32)
  else c.

(** Membership of a character in a class; [i] is the ignore-case flag. *)
Definition inClass (i : bool) (ranges : list (ascii * ascii)) (c : ascii) : bool :=
  existsb (inRange c) ranges || (i && existsb (inRange (swapCase c)) ranges).

Fixpoint nullable (r : regex) : bool :=
  match r with
  | Void => false
  | Eps => true
  | Class _ => false
  | Cat r1 r2 => nullable r1 && nullable r2
  | Alt r1 r2 => nullable r1 || nullable r2
  | Star _ => true
  end.

(** What remains of [r] after reading [c]. *)
Fixpoint deriv (i : bool) (c : ascii) (r : regex) : regex :=
  match r with
  | Void => Void
  | Eps => Void
  | Class ranges => if inClass i ranges c then Eps else Void
  | Cat r1 r2 =>
      if nullable r1 then Alt (Cat (deriv i c r1) r2) (deriv i c r2)
      else Cat (deriv i c r1) r2
  | Alt r1 r2 => Alt (deriv i c r1) (deriv i c r2)
  | Star r1 => Cat (deriv i c r1) (Star r1)
  end.

(** [/^r$/.test(s)]: the pattern is anchored at both ends, so the test
    is a match of the whole string. *)
Fixpoint test (i : bool) (r : regex) (s : string) : bool :=
  match s with
  | EmptyString => nullable r
  | String c rest => test i (deriv i c r) rest
  end.

(** The language of a pattern, as a relation. *)
Inductive lang (i : bool) : regex -> string -> Prop :=
| lang_eps : lang i Eps EmptyString
| lang_class ranges c :
    inClass i ranges c = true -> lang i (Class ranges) (String c EmptyString)
| lang_cat r1 r2 s1 s2 :
    lang i r1 s1 -> lang i r2 s2 -> lang i (Cat r1 r2) (s1 +:+ s2)
| lang_alt_l r1 r2 s : lang i r1 s -> lang i (Alt r1 r2) s
| lang_alt_r r1 r2 s : lang i r2 s -> lang i (Alt r1 r2) s
| lang_star_nil r : lang i (Star r) EmptyString
| lang_star_cons r s1 s2 :
    lang i r s1 -> lang i (Star r) s2 -> lang i (Star r) (s1 +:+ s2).

(** A string built from characters of one class. *)
Fixpoint allInClass (i : bool) (ranges : list (ascii * ascii)) (s : string) : bool :=
  match s with
  | EmptyString => true
  | String c rest => inClass i ranges c && allInClass i ranges rest
  end.

End Regex.

(* ===================================================================== *)
(** ** The middleware module *)
(* ===================================================================== *)

Module Tenant.
Import JsString.

(** *** Values and requests *)

(** The values a header or a query parameter can hold.  [JObj] stands for
    any object or array: truthy, not a string, without a [split] method. *)
Inductive JsVal : Type :=
| JUndefined : JsVal
| JNull : JsVal
| JBool : bool -> JsVal
| JNum : Z -> JsVal
| JStr : string -> JsVal
| JObj : JsVal.

Definition truthy (v : JsVal) : bool :=
  match v with
  | JUndefined | JNull => false
  | JBool b => b
  | JNum n => negb (n =? 0)
  | JStr s => negb (String.eqb s "")
  | JObj => true
  end.

(** [a || b] *)
Definition jsOr (a b : JsVal) : JsVal := if truthy a then a else b.

Definition isString (v : JsVal) : bool :=
  match v with JStr _ => true | _ => false end.

Record Headers : Type := { host : JsVal; x_forwarded_host : JsVal }.
Record Query : Type := { query_tenant : JsVal }.
Record Request : Type := { headers : option Headers; query : option Query }.

(** The outcome of running a piece of code: a value, or an exception. *)
Inductive Completion (A : Type) : Type :=
| Normal : A -> Completion A
| Throw : string -> Completion A.
Arguments Normal {A} _.
Arguments Throw {A} _.

(** *** extractSubdomain *)

Definition excludedSubdomains : list string := ["www"; "api"; "admin"; "app"].

Definition extractSubdomain (req : Request) : Completion JsVal :=
  match headers req with
  | None => Throw "TypeError: cannot read properties of undefined"
  | Some h =>
      let host := jsOr (host h) (x_forwarded_host h) in
      if negb (truthy host) then Normal JNull
      else
        match host with
        | JStr host =>
            let hostname := hd "" (split ":" host) in
            let parts := split "." hostname in
            if includes hostname "localhost" || includes hostname "127.0.0.1" then
              let dashIndex := indexOf "-" hostname in
              if dashIndex >? 0 then Normal (JStr (substring0 dashIndex hostname))
              else
                Normal (jsOr (match query req with
                              | Some q => query_tenant q
                              | None => JUndefined
                              end) (JStr "demo"))
            else if (3 <=? length parts)%nat then
              let subdomain := hd "" parts in
              if listIncludes excludedSubdomains (toLowerCase subdomain)
              then Normal JNull
              else Normal (JStr subdomain)
            else Normal JNull
        | _ => Throw "TypeError: host.split is not a function"
        end
  end.

(** *** isValidSubdomain *)

Definition alnum : list (ascii * ascii) :=
  [("a", "z"); ("0", "9")]%char.
Definition alnumHyphen : list (ascii * ascii) :=
  [("a", "z"); ("0", "9"); ("-", "-")]%char.

(** [/^[a-z0-9]([a-z0-9-]*[a-z0-9])?$/i] *)
Definition subdomainRegex : Regex.regex :=
  Regex.Cat (Regex.Class alnum)
    (Regex.Opt (Regex.Cat (Regex.Star (Regex.Class alnumHyphen))
                          (Regex.Class alnum))).

Definition reservedSubdomains : list string :=
  ["www"; "api"; "admin"; "app"; "mail"; "ftp"; "blog";
   "support"; "help"; "docs"; "status"; "cdn"; "assets"].

Definition isValidSubdomain (subdomain : JsVal) : bool :=
  if negb (truthy subdomain) || negb (isString subdomain) then false
  else
    match subdomain with
    | JStr s =>
        if (Z.of_nat (String.length s) <? 2) || (Z.of_nat (String.length s) >? 50)
        then false
        else if negb (Regex.test true subdomainRegex s) then false
        else if listIncludes reservedSubdomains (toLowerCase s) then false
        else true
    | _ => false
    end.

(** *** Tenant records, the cache and the remote store *)

Definition Settings : Type := list (string * string).

(** A row as the stored procedure [get_tenant_by_subdomain] returns it. *)
Record TenantRow : Type :=
  { tenant_id : string;
    tenant_name : string;
    tenant_status : string;
    tenant_settings : option Settings }.

Record TenantInfo : Type :=
  { id : string;
    subdomain : string;
    name : string;
    status : string;
    settings : Settings }.

Record CacheEntry : Type :=
  { data : option TenantInfo; timestamp : Z }.

Definition CACHE_TTL : Z := 5 * 60 * 1000.

(** What a remote call comes back with: the promise rejects, or it
    resolves to an object with a [data] and an [error] field. *)
Inductive LookupReply : Type :=
| LookupRejected : LookupReply
| LookupResolved (reply_data : option (list TenantRow))
                 (reply_error : option string) : LookupReply.

Inductive ContextReply : Type :=
| ContextRejected : ContextReply
| ContextResolved (reply_error : option string) : ContextReply.

(** The remote calls a run has issued, oldest first. *)
Inductive Event : Type :=
| EvLookup (subdomain_param : string) (reply : LookupReply) : Event
| EvSetContext (tenant_uuid : string) (reply : ContextReply) : Event.

(** The surroundings of the module: the clock and the remote store with
    its two stored procedures.  Each of them may change the world. *)
Class Backend (W : Type) : Type :=
  { date_now : W -> Z * W;
    rpc_get_tenant_by_subdomain : string -> W -> LookupReply * W;
    rpc_set_tenant_context : string -> W -> ContextReply * W }.

Record St (W : Type) : Type :=
  { world : W;
    tenantCache : gmap string CacheEntry;
    calls : list Event }.
Arguments world {W} _.
Arguments tenantCache {W} _.
Arguments calls {W} _.

(** *** A state and exception monad *)

Definition M (W A : Type) : Type := St W -> Completion A * St W.

Definition ret {W A} (a : A) : M W A := fun st => (Normal a, st).

Definition throw {W A} (e : string) : M W A := fun st => (Throw e, st).

Definition bind {W A B} (m : M W A) (k : A -> M W B) : M W B :=
  fun st =>
    match m st with
    | (Normal a, st') => k a st'
    | (Throw e, st') => (Throw e, st')
    end.

(** [try { m } catch (e) { h e }] *)
Definition tryCatch {W A} (m : M W A) (h : string -> M W A) : M W A :=
  fun st =>
    match m st with
    | (Normal a, st') => (Normal a, st')
    | (Throw e, st') => h e st'
    end.

Definition lift {W A} (c : Completion A) : M W A := fun st => (c, st).

Notation "'let!' x ':=' m 'in' k" := (bind m (fun x => k))
  (at level 10, x name, m at level 100, k at level 200).
Notation "m ';;;' k" := (bind m (fun _ => k))
  (at level 100, k at level 200, right associativity).

Section WithBackend.
Context {W : Type} `{Backend W}.

Definition withWorld (st : St W) (w : W) : St W :=
  {| world := w; tenantCache := tenantCache st; calls := calls st |}.

Definition withCache (st : St W) (key : string) (entry : CacheEntry) : St W :=
  {| world := world st;
     tenantCache := <[key := entry]> (tenantCache st);
     calls := calls st |}.

Definition withCall (st : St W) (ev : Event) : St W :=
  {| world := world st; tenantCache := tenantCache st; calls := calls st ++ [ev] |}.

(** [Date.now()] *)
Definition dateNow : M W Z :=
  fun st =>
    let (t, w) := date_now (world st) in
    (Normal t, withWorld st w).

(** [tenantCache.get(key)] *)
Definition cacheGet (key : string) : M W (option CacheEntry) :=
  fun st => (Normal (tenantCache st !! key), st).

(** [tenantCache.set(key, entry)] *)
Definition cacheSet (key : string) (entry : CacheEntry) : M W unit :=
  fun st => (Normal tt, withCache st key entry).

(** [const { data, error } = await supabase.rpc('get_tenant_by_subdomain', ...)] *)
Definition rpcLookup (subdomain : string)
  : M W (option (list TenantRow) * option string) :=
  fun st =>
    let (reply, w) := rpc_get_tenant_by_subdomain subdomain (world st) in
    let st' := withCall (withWorld st w) (EvLookup subdomain reply) in
    match reply with
    | LookupRejected => (Throw "get_tenant_by_subdomain rejected", st')
    | LookupResolved d e => (Normal (d, e), st')
    end.

(** [const { error } = await supabase.rpc('set_tenant_context', ...)] *)
Definition rpcSetContext (tenantId : string) : M W (option string) :=
  fun st =>
    let (reply, w) := rpc_set_tenant_context tenantId (world st) in
    let st' := withCall (withWorld st w) (EvSetContext tenantId reply) in
    match reply with
    | ContextRejected => (Throw "set_tenant_context rejected", st')
    | ContextResolved e => (Normal e, st')
    end.

(** *** getTenantInfo *)

Definition cacheKeyOf (subdomain : string) : string := "tenant:" +:+ subdomain.

(** The [try { ... } catch] block of [getTenantInfo]: the remote query
    and what is done with its reply. *)
Definition fetchTenant (subdomain cacheKey : string) : M W (option TenantInfo) :=
  tryCatch
    (let! reply := rpcLookup subdomain in
     let '(data, error) := reply in
     match error with
     | Some _ => ret None
     | None =>
         match data with
         | None | Some [] =>
             let! now := dateNow in
             cacheSet cacheKey {| data := None; timestamp := now |} ;;;
             ret None
         | Some (tenant :: _) =>
             if negb (String.eqb (tenant_status tenant) "active") then ret None
             else
               let tenantInfo :=
                 {| id := tenant_id tenant;
                    subdomain := subdomain;
                    name := tenant_name tenant;
                    status := tenant_status tenant;
                    settings := match tenant_settings tenant with
                                | Some s => s
                                | None => []
                                end |} in
               let! now := dateNow in
               cacheSet cacheKey {| data := Some tenantInfo; timestamp := now |} ;;;
               ret (Some tenantInfo)
         end
     end)
    (fun _ => ret None).

Definition getTenantInfo (subdomain : string) : M W (option TenantInfo) :=
  let cacheKey := cacheKeyOf subdomain in
  let! cached := cacheGet cacheKey in
  match cached with
  | Some c =>
      let! now := dateNow in
      if now - timestamp c <? CACHE_TTL then ret (data c)
      else fetchTenant subdomain cacheKey
  | None => fetchTenant subdomain cacheKey
  end.

(** *** setTenantContext *)

Definition setTenantContext (tenantId : string) : M W unit :=
  tryCatch
    (let! error := rpcSetContext tenantId in
     match error with
     | Some _ => throw "Failed to set tenant context"
     | None => ret tt
     end)
    (fun error => throw error).

(** *** resolveTenant, called without a [next] callback *)

Record TenantError : Type :=
  { code : string; message : string; details : string }.

Record Resolution : Type :=
  { error : option TenantError; tenant : option TenantInfo }.

Definition resolveTenant (req : Request) : M W Resolution :=
  tryCatch
    (let! subdomain := lift (extractSubdomain req) in
     if negb (truthy subdomain) then
       let error :=
         {| code := "INVALID_SUBDOMAIN";
            message := "No valid subdomain found in request";
            details := "Please access the application using a valid tenant subdomain (e.g., acme.yourapp.com)" |} in
       ret {| error := Some error; tenant := None |}
     else if negb (isValidSubdomain subdomain) then
       let error :=
         {| code := "INVALID_SUBDOMAIN_FORMAT";
            message := "Invalid subdomain format";
            details := "Subdomain must be 2-50 characters, alphanumeric with hyphens allowed" |} in
       ret {| error := Some error; tenant := None |}
     else
       (* past the validator the candidate is a string *)
       match subdomain with
       | JStr subdomain =>
           let! tenant := getTenantInfo subdomain in
           match tenant with
           | None =>
               let error :=
                 {| code := "TENANT_NOT_FOUND";
                    message := "Tenant not found or inactive";
                    details := "No active tenant found for subdomain: " +:+ subdomain |} in
               ret {| error := Some error; tenant := None |}
           | Some tenant =>
               setTenantContext (id tenant) ;;;
               ret {| error := None; tenant := Some tenant |}
           end
       | _ => throw "TypeError"
       end)
    (fun _ =>
       let tenantError :=
         {| code := "TENANT_RESOLUTION_ERROR";
            message := "Error resolving tenant";
            details := "An internal error occurred while resolving tenant information" |} in
       ret {| error := Some tenantError; tenant := None |}).

(** *** Cache administration *)

(** [tenantCache.delete(key)] *)
Definition clearTenantCache (subdomain : string) : M W unit :=
  let cacheKey := cacheKeyOf subdomain in
  fun st =>
    (Normal tt, {| world := world st;
                   tenantCache := delete cacheKey (tenantCache st);
                   calls := calls st |}).

Definition clearAllTenantCache : M W unit :=
  fun st =>
    (Normal tt, {| world := world st; tenantCache := ∅; calls := calls st |}).

(** *** The life of the module

    The cache is private to the module: it starts empty and changes only
    through the exported functions.  Between two calls the world moves
    on by itself (time passes, the remote store is updated). *)

Definition initial (w : W) : St W :=
  {| world := w; tenantCache := ∅; calls := [] |}.

Inductive step : St W -> St W -> Prop :=
| step_resolve req st r st' :
    resolveTenant req st = (r, st') -> step st st'
| step_clear subdomain st r st' :
    clearTenantCache subdomain st = (r, st') -> step st st'
| step_clear_all st r st' :
    clearAllTenantCache st = (r, st') -> step st st'
| step_world st w :
    step st (withWorld st w).

Inductive reachable : St W -> Prop :=
| reachable_initial w : reachable (initial w)
| reachable_step st st' : reachable st -> step st st' -> reachable st'.

(** *** Vocabulary of the properties *)

(** The number of remote tenant lookups among the calls issued. *)
Fixpoint remoteLookups (evs : list Event) : nat :=
  match evs with
  | [] => 0
  | EvLookup _ _ :: evs' => S (remoteLookups evs')
  | EvSetContext _ _ :: evs' => remoteLookups evs'
  end.

(** A remote lookup fails when the promise rejects or the reply carries
    an error. *)
Definition lookupFailed (reply : LookupReply) : Prop :=
  match reply with
  | LookupRejected => True
  | LookupResolved _ (Some _) => True
  | LookupResolved _ None => False
  end.

Definition contextFailed (reply : ContextReply) : Prop :=
  match reply with
  | ContextRejected => True
  | ContextResolved (Some _) => True
  | ContextResolved None => False
  end.

(** The replies that leave an entry in the cache: no row at all, or a
    first row that is active. *)
Definition cacheableRows (d : option (list TenantRow)) : Prop :=
  match d with
  | None | Some [] => True
  | Some (row :: _) => tenant_status row = "active"
  end.

(** The world in which [getTenantInfo] issues its remote query when it
    issues one: the world of the call when the cache holds no entry for
    the identifier, and the world left by the reading of the clock for
    the freshness test when it holds one. *)
Definition queryWorld (subdomain : string) (st : St W) : W :=
  match tenantCache st !! cacheKeyOf subdomain with
  | Some _ => snd (date_now (world st))
  | None => world st
  end.

(** The reading of the clock that follows the reply to that query: the
    [Date.now()] of the entry that the call writes. *)
Definition readingAfterReply (subdomain : string) (st : St W) : Z :=
  fst (date_now (snd (rpc_get_tenant_by_subdomain subdomain (queryWorld subdomain st)))).

(** The record built from the first row of a successful lookup. *)
Definition tenantInfoOf (subdomain : string) (row : TenantRow) : TenantInfo :=
  {| id := tenant_id row;
     subdomain := subdomain;
     name := tenant_name row;
     status := tenant_status row;
     settings := default [] (tenant_settings row) |}.

(** The four error codes. *)
Definition errorCodes : list string :=
  ["INVALID_SUBDOMAIN"; "INVALID_SUBDOMAIN_FORMAT"; "TENANT_NOT_FOUND";
   "TENANT_RESOLUTION_ERROR"].

(** The results of the failing resolutions. *)
Definition invalidSubdomain : Resolution :=
  {| error := Some {| code := "INVALID_SUBDOMAIN";
                      message := "No valid subdomain found in request";
                      details := "Please access the application using a valid tenant subdomain (e.g., acme.yourapp.com)" |};
     tenant := None |}.

Definition invalidSubdomainFormat : Resolution :=
  {| error := Some {| code := "INVALID_SUBDOMAIN_FORMAT";
                      message := "Invalid subdomain format";
                      details := "Subdomain must be 2-50 characters, alphanumeric with hyphens allowed" |};
     tenant := None |}.

Definition resolutionError : Resolution :=
  {| error := Some {| code := "TENANT_RESOLUTION_ERROR";
                      message := "Error resolving tenant";
                      details := "An internal error occurred while resolving tenant information" |};
     tenant := None |}.

(** The result of a resolution that found no active tenant. *)
Definition tenantNotFound (subdomain : string) : Resolution :=
  {| error := Some {| code := "TENANT_NOT_FOUND";
                      message := "Tenant not found or inactive";
                      details := "No active tenant found for subdomain: " +:+ subdomain |};
     tenant := None |}.

(** The runs of the remote query of [getTenantInfo], case by case: the
    value returned and the state left behind. *)
Inductive Fetched (subdomain : string) (st : St W)
  : LookupReply -> option TenantInfo -> St W -> Prop :=
| Fetched_failed reply w :
    rpc_get_tenant_by_subdomain subdomain (world st) = (reply, w) ->
    lookupFailed reply ->
    Fetched subdomain st reply None
      (withCall (withWorld st w) (EvLookup subdomain reply))
| Fetched_absent d w now w' :
    rpc_get_tenant_by_subdomain subdomain (world st) = (LookupResolved d None, w) ->
    d = None \/ d = Some [] ->
    date_now w = (now, w') ->
    Fetched subdomain st (LookupResolved d None) None
      (withCache
         (withWorld (withCall (withWorld st w) (EvLookup subdomain (LookupResolved d None))) w')
         (cacheKeyOf subdomain) {| data := None; timestamp := now |})
| Fetched_inactive row rows w :
    rpc_get_tenant_by_subdomain subdomain (world st)
      = (LookupResolved (Some (row :: rows)) None, w) ->
    tenant_status row <> "active" ->
    Fetched subdomain st (LookupResolved (Some (row :: rows)) None) None
      (withCall (withWorld st w)
         (EvLookup subdomain (LookupResolved (Some (row :: rows)) None)))
| Fetched_active row rows w now w' :
    rpc_get_tenant_by_subdomain subdomain (world st)
      = (LookupResolved (Some (row :: rows)) None, w) ->
    tenant_status row = "active" ->
    date_now w = (now, w') ->
    Fetched subdomain st (LookupResolved (Some (row :: rows)) None)
      (Some (tenantInfoOf subdomain row))
      (withCache
         (withWorld (withCall (withWorld st w)
            (EvLookup subdomain (LookupResolved (Some (row :: rows)) None))) w')
         (cacheKeyOf subdomain)
         {| data := Some (tenantInfoOf subdomain row); timestamp := now |}).

(** The runs of [getTenantInfo]: served from a fresh entry, or fetched
    because the entry is stale or missing. *)
Inductive Looked (subdomain : string) (st : St W)
  : option TenantInfo -> St W -> Prop :=
| Looked_fresh entry now w :
    tenantCache st !! cacheKeyOf subdomain = Some entry ->
    date_now (world st) = (now, w) ->
    now - timestamp entry < CACHE_TTL ->
    Looked subdomain st (data entry) (withWorld st w)
| Looked_stale entry now w reply r st' :
    tenantCache st !! cacheKeyOf subdomain = Some entry ->
    date_now (world st) = (now, w) ->
    CACHE_TTL <= now - timestamp entry ->
    Fetched subdomain (withWorld st w) reply r st' ->
    Looked subdomain st r st'
| Looked_missing reply r st' :
    tenantCache st !! cacheKeyOf subdomain = None ->
    Fetched subdomain st reply r st' ->
    Looked subdomain st r st'.


End WithBackend.

(** *** Case-insensitive equality, character by character *)

Definition isCapital (c : ascii) : bool :=
  let n := nat_of_ascii c in
  ((65 <=? n)%nat && (n <=? 90)%nat)
  || ((192 <=? n)%nat && (n <=? 222)%nat && negb (n =? 215)%nat).

(** Two characters are the same letter when they are equal or one is the
    capital of the other (capitals sit 32 below their small letters). *)
Definition sameLetter (c d : ascii) : bool :=
  Ascii.eqb c d
  || (isCapital c && (nat_of_ascii d =? nat_of_ascii c + 32)%nat)
  || (isCapital d && (nat_of_ascii c =? nat_of_ascii d + 32)%nat).

Fixpoint equalsIgnoreCase (s t : string) : bool :=
  match s, t with
  | EmptyString, EmptyString => true
  | String c s', String d t' => sameLetter c d && equalsIgnoreCase s' t'
  | _, _ => false
  end.

(** The host name the extractor works on: the host header (or the
    forwarded host) up to the port. *)
Definition hostnameOf (host : string) : string := hd "" (split ":" host).

Definition isDevelopmentHost (hostname : string) : bool :=
  includes hostname "localhost" || includes hostname "127.0.0.1".

(** *** A small concrete world

    A frozen clock and a remote store that gives the same two replies to
    every call. *)

Record Demo : Type :=
  { demo_clock : Z; demo_lookup : LookupReply; demo_context : ContextReply }.

#[export] Instance demoBackend : Backend Demo :=
  { date_now w := (demo_clock w, w);
    rpc_get_tenant_by_subdomain _ w := (demo_lookup w, w);
    rpc_set_tenant_context _ w := (demo_context w, w) }.

Definition acmeRow : TenantRow :=
  {| tenant_id := "t1"; tenant_name := "Acme";
     tenant_status := "active"; tenant_settings := None |}.

Definition suspendedRow : TenantRow :=
  {| tenant_id := "t2"; tenant_name := "Go";
     tenant_status := "suspended"; tenant_settings := None |}.

(** Worlds for the scenarios: the store is down, has no row, has an
    active row, has a suspended row. *)
Definition worldDown (t : Z) : Demo :=
  {| demo_clock := t;
     demo_lookup := LookupResolved None (Some "connection refused");
     demo_context := ContextResolved None |}.

Definition worldEmpty (t : Z) : Demo :=
  {| demo_clock := t;
     demo_lookup := LookupResolved (Some []) None;
     demo_context := ContextResolved None |}.

Definition worldAcme (t : Z) : Demo :=
  {| demo_clock := t;
     demo_lookup := LookupResolved (Some [acmeRow]) None;
     demo_context := ContextResolved None |}.

Definition worldSuspended (t : Z) : Demo :=
  {| demo_clock := t;
     demo_lookup := LookupResolved (Some [suspendedRow]) None;
     demo_context := ContextResolved None |}.

Definition worldNoContext (t : Z) : Demo :=
  {| demo_clock := t;
     demo_lookup := LookupResolved (Some [acmeRow]) None;
     demo_context := ContextResolved (Some "permission denied") |}.

Definition requestFor (h : string) : Request :=
  {| headers := Some {| host := JStr h; x_forwarded_host := JUndefined |};
     query := None |}.

(** *** The shape of a well-formed label, spelled out *)

Definition isLetterOrDigit (c : ascii) : bool :=
  let n := nat_of_ascii c in
  ((48 <=? n)%nat && (n <=? 57)%nat)
  || ((65 <=? n)%nat && (n <=? 90)%nat)
  || ((97 <=? n)%nat && (n <=? 122)%nat).

Definition isHyphen (c : ascii) : bool := Ascii.eqb c "-".

Fixpoint allLabelChars (s : string) : bool :=
  match s with
  | EmptyString => true
  | String c rest => (isLetterOrDigit c || isHyphen c) && allLabelChars rest
  end.

(** A letter or digit, then optionally letters, digits and hyphens
    closed by a letter or digit. *)
Definition wellFormedLabel (s : string) : Prop :=
  exists c rest,
    s = String c rest /\ isLetterOrDigit c = true /\
    (rest = "" \/
     exists mid d, rest = mid +:+ String d "" /\
                   allLabelChars mid = true /\ isLetterOrDigit d = true).

End Tenant.

(* ===================================================================== *)
(** ** Cache statistics, the middleware mode and the helpers of callers *)
(* ===================================================================== *)

Module Middleware.
Import JsString Tenant.

(** *** getTenantCacheStats *)

(** The statistics object.  [keys] is the array of the cached keys; the
    order of that array (the order of insertion) is not represented, the
    keys are given as a set. *)
Record CacheStats : Type :=
  { size : nat; keys : gset string }.

(** *** hasValidTenantContext *)

(** A property of the request object: never written, [null], or
    holding an object. *)
Inductive Slot (A : Type) : Type :=
| Undefined : Slot A
| Null : Slot A
| Holds : A -> Slot A.
Arguments Undefined {A}.
Arguments Null {A}.
Arguments Holds {A} _.

Definition slotTruthy {A : Type} (s : Slot A) : bool :=
  match s with Holds _ => true | _ => false end.

(** The two properties of the request that the module writes:
    [req.tenant] and [req.tenantError]. *)
Record TenantContext : Type :=
  { req_tenant : Slot TenantInfo; req_tenantError : Slot TenantError }.

(** [req.tenant && req.tenant.id && !req.tenantError]: the value of the
    first falsy operand, or of the last one. *)
Definition hasValidTenantContext (req : TenantContext) : JsVal :=
  match req_tenant req with
  | Undefined => JUndefined
  | Null => JNull
  | Holds t =>
      if negb (truthy (JStr (id t))) then JStr (id t)
      else JBool (negb (slotTruthy (req_tenantError req)))
  end.

(** *** getTenantConfig *)

(** A configuration value: a number, a boolean or a string. *)
Inductive ConfigValue : Type :=
| CNum : Z -> ConfigValue
| CBool : bool -> ConfigValue
| CStr : string -> ConfigValue.

(** The object that a list of settings stands for: an entry listed
    earlier hides a later one with the same key. *)
Definition settingsObject (s : Settings) : gmap string ConfigValue :=
  CStr <$> list_to_map s.

(** [{ ...defaultConfig, ...tenant.settings }], or the default when
    there is no tenant. *)
Definition getTenantConfig (tenant : option TenantInfo)
    (defaultConfig : gmap string ConfigValue) : gmap string ConfigValue :=
  match tenant with
  | None => defaultConfig
  | Some t => settingsObject (settings t) ∪ defaultConfig
  end.

(** *** A state and exception monad over any state *)

Definition N (S A : Type) : Type := S -> Completion A * S.

Definition retN {S A} (a : A) : N S A := fun st => (Normal a, st).

Definition throwN {S A} (e : string) : N S A := fun st => (Throw e, st).

Definition bindN {S A B} (m : N S A) (k : A -> N S B) : N S B :=
  fun st =>
    match m st with
    | (Normal a, st') => k a st'
    | (Throw e, st') => (Throw e, st')
    end.

Definition tryCatchN {S A} (m : N S A) (h : string -> N S A) : N S A :=
  fun st =>
    match m st with
    | (Normal a, st') => (Normal a, st')
    | (Throw e, st') => h e st'
    end.

Notation "'let*' x ':=' m 'in' k" := (bindN m (fun x => k))
  (at level 10, x name, m at level 100, k at level 200).
Notation "m '>>>' k" := (bindN m (fun _ => k))
  (at level 100, k at level 200, right associativity).

Section WithBackend.
Context {W : Type} `{Backend W}.

(** [getTenantCacheStats()] *)
Definition getTenantCacheStats : M W CacheStats :=
  fun st =>
    (Normal {| size := base.size (tenantCache st); keys := dom (tenantCache st) |}, st).

(** *** resolveTenant, called with a [next] callback *)

(** The state of a run in middleware mode: the request properties and
    the state of the module. *)
Definition MwState : Type := TenantContext * St W.

(** A run of the module's own code inside a middleware run. *)
Definition liftSt {A} (m : M W A) : N MwState A :=
  fun st =>
    let (c, st') := m (snd st) in (c, (fst st, st')).

Definition liftCompletion {A} (c : Completion A) : N MwState A :=
  fun st => (c, st).

(** [req.tenant = v] *)
Definition setTenant (v : Slot TenantInfo) : N MwState unit :=
  fun st =>
    (Normal tt, ({| req_tenant := v; req_tenantError := req_tenantError (fst st) |}, snd st)).

(** [req.tenantError = v] *)
Definition setTenantError (v : Slot TenantError) : N MwState unit :=
  fun st =>
    (Normal tt, ({| req_tenant := req_tenant (fst st); req_tenantError := v |}, snd st)).

(** The callback: any code that reads and writes the request and the
    world, returns a value or throws.  [return next()] hands its value
    on. *)
Definition resolveTenantNext {R : Type} (req : Request) (next : N MwState R)
  : N MwState R :=
  tryCatchN
    (let* subdomain := liftCompletion (extractSubdomain req) in
     if negb (truthy subdomain) then
       let error :=
         {| code := "INVALID_SUBDOMAIN";
            message := "No valid subdomain found in request";
            details := "Please access the application using a valid tenant subdomain (e.g., acme.yourapp.com)" |} in
       setTenantError (Holds error) >>> next
     else if negb (isValidSubdomain subdomain) then
       let error :=
         {| code := "INVALID_SUBDOMAIN_FORMAT";
            message := "Invalid subdomain format";
            details := "Subdomain must be 2-50 characters, alphanumeric with hyphens allowed" |} in
       setTenantError (Holds error) >>> next
     else
       match subdomain with
       | JStr subdomain =>
           let* tenant := liftSt (getTenantInfo subdomain) in
           match tenant with
           | None =>
               let error :=
                 {| code := "TENANT_NOT_FOUND";
                    message := "Tenant not found or inactive";
                    details := "No active tenant found for subdomain: " +:+ subdomain |} in
               setTenantError (Holds error) >>> next
           | Some tenant =>
               liftSt (setTenantContext (id tenant)) >>>
               setTenant (Holds tenant) >>>
               setTenantError Null >>>
               next
           end
       | _ => throwN "TypeError"
       end)
    (fun _ =>
       let tenantError :=
         {| code := "TENANT_RESOLUTION_ERROR";
            message := "Error resolving tenant";
            details := "An internal error occurred while resolving tenant information" |} in
       setTenantError (Holds tenantError) >>> next).

(** [tenantMiddleware = (req, res, next) => resolveTenant(req, res, next)] *)
Definition tenantMiddleware {R : Type} (req : Request) (next : N MwState R)
  : N MwState R :=
  resolveTenantNext req next.

(** *** Vocabulary of the properties *)

(** The request properties after a resolution with result [res]: a
    tenant is stored with a null error; an error is stored and the
    tenant property is left as it was. *)
Definition contextAfter (ctx : TenantContext) (res : Resolution) : TenantContext :=
  match tenant res, error res with
  | Some t, _ => {| req_tenant := Holds t; req_tenantError := Null |}
  | None, Some e => {| req_tenant := req_tenant ctx; req_tenantError := Holds e |}
  | None, None => ctx
  end.

(** Every key of the cache is the key of a valid subdomain, and a record
    cached under it is an active record for that subdomain. *)
Definition cacheWellKeyed (st : St W) : Prop :=
  forall key entry,
    tenantCache st !! key = Some entry ->
    exists s,
      key = cacheKeyOf s /\ isValidSubdomain (JStr s) = true /\
      forall t, data entry = Some t -> subdomain t = s /\ status t = "active".

(** The remote context calls among the calls issued. *)
Fixpoint contextCalls (evs : list Event) : nat :=
  match evs with
  | [] => 0
  | EvLookup _ _ :: evs' => contextCalls evs'
  | EvSetContext _ _ :: evs' => S (contextCalls evs')
  end.

End WithBackend.

(** A callback that records the request properties it sees and returns,
    and one that throws on every call. *)
Definition nextReturning : N (TenantContext * St Demo) TenantContext :=
  fun st => (Normal (fst st), st).

Definition nextThrowing : N (TenantContext * St Demo) TenantContext :=
  fun st => (Throw "next failed", st).

Definition blankContext : TenantContext :=
  {| req_tenant := Undefined; req_tenantError := Undefined |}.

End Middleware.

(* ===================================================================== *)
(** ** The API route that calls the middleware *)
(* ===================================================================== *)

Module PhrasesApi.
Import JsString Tenant Middleware.

(** *** sanitizeContent *)

(** [s.replace(/c/g, replacement)] for a one-character pattern *)
Fixpoint replaceAll (c : ascii) (replacement : string) (s : string) : string :=
  match s with
  | EmptyString => EmptyString
  | String d rest =>
      if Ascii.eqb d c then replacement +:+ replaceAll c replacement rest
      else String d (replaceAll c replacement rest)
  end.

(** The white space and line terminator code units below 256: tab, line
    feed, vertical tab, form feed, carriage return, space and the
    no-break space. *)
Definition isWhiteSpace (c : ascii) : bool :=
  let n := nat_of_ascii c in
  ((9 <=? n)%nat && (n <=? 13)%nat) || (n =? 32)%nat || (n =? 160)%nat.

Fixpoint trimStart (s : string) : string :=
  match s with
  | EmptyString => EmptyString
  | String c rest => if isWhiteSpace c then trimStart rest else s
  end.

Fixpoint trimEnd (s : string) : string :=
  match s with
  | EmptyString => EmptyString
  | String c rest =>
      match trimEnd rest with
      | EmptyString => if isWhiteSpace c then EmptyString else String c EmptyString
      | r => String c r
      end
  end.

(** [s.trim()] *)
Definition trim (s : string) : string := trimEnd (trimStart s).

Definition sanitizeContent (content : JsVal) : string :=
  if negb (truthy content) || negb (isString content) then ""
  else
    match content with
    | JStr content =>
        trim
          (replaceAll "'" "&#x27;"
             (replaceAll "034" "&quot;"
                (replaceAll ">" "&gt;"
                   (replaceAll "<" "&lt;"
                      (replaceAll "&" "&amp;" content)))))
    | _ => ""
    end.

(** The entity that stands for one character, and the text escaped
    character by character. *)
Definition escapeChar (c : ascii) : string :=
  if Ascii.eqb c "&" then "&amp;"
  else if Ascii.eqb c "<" then "&lt;"
  else if Ascii.eqb c ">" then "&gt;"
  else if Ascii.eqb c "034" then "&quot;"
  else if Ascii.eqb c "'" then "&#x27;"
  else String c EmptyString.

Fixpoint escapeHtml (s : string) : string :=
  match s with
  | EmptyString => EmptyString
  | String c rest => escapeChar c +:+ escapeHtml rest
  end.

(** *** Responses *)

#[local] Set Warnings "-register-all".

(** The values that the route hands to [res.status] and [res.json].
    [JsonInherited] is a member that an object literal inherits from
    [Object.prototype] when it is read under a key it does not own. *)
Inductive Json : Type :=
| JsonNull : Json
| JsonBool : bool -> Json
| JsonNum : Z -> Json
| JsonStr : string -> Json
| JsonArr : list Json -> Json
| JsonObj : list (string * Json) -> Json
| JsonInherited : Json.

Record Response : Type :=
  { resHeaders : list (string * string);
    resStatus : option Json;
    resBody : option Json;
    resEnded : bool }.

Definition blankResponse : Response :=
  {| resHeaders := []; resStatus := None; resBody := None; resEnded := false |}.

(** The names that every object literal inherits. *)
Definition objectPrototypeKeys : list string :=
  ["constructor"; "__proto__"; "hasOwnProperty"; "isPrototypeOf";
   "propertyIsEnumerable"; "toLocaleString"; "toString"; "valueOf";
   "__defineGetter__"; "__defineSetter__"; "__lookupGetter__"; "__lookupSetter__"].

Fixpoint ownProperty (fields : list (string * Json)) (key : string) : option Json :=
  match fields with
  | [] => None
  | (k, v) :: rest => if String.eqb k key then Some v else ownProperty rest key
  end.

(** [literal[key] || fallback], for a literal whose own values are
    truthy. *)
Definition propertyOr (fields : list (string * Json)) (key : string) (fallback : Json) : Json :=
  match ownProperty fields key with
  | Some v => v
  | None => if listIncludes objectPrototypeKeys key then JsonInherited else fallback
  end.

(** *** getTenantErrorSuggestion *)

Definition getTenantErrorSuggestion (errorCode : string) : Json :=
  let suggestions :=
    [("INVALID_SUBDOMAIN",
      JsonStr "Please access the application using a valid subdomain (e.g., yourcompany.yourdomain.com)");
     ("INVALID_SUBDOMAIN_FORMAT",
      JsonStr "Subdomains must be 2-50 characters long and contain only letters, numbers, and hyphens");
     ("TENANT_NOT_FOUND",
      JsonStr "Please verify your subdomain is correct and your account is active. Contact support if this persists.");
     ("TENANT_RESOLUTION_ERROR",
      JsonStr "Please try again in a moment. Contact support if the problem continues.")] in
  propertyOr suggestions errorCode (JsonStr "Please contact support for assistance.").

Section WithBackend.
Context {W : Type} `{Backend W}.

(** The state of a run of the route: the response being built and the
    state of the middleware module. *)
Definition ApiState : Type := Response * St W.

Definition liftApi {A} (m : M W A) : N ApiState A :=
  fun st =>
    let (c, st') := m (snd st) in (c, (fst st, st')).

(** The four methods of the response are modelled on a response that
    has not been sent: there they record what they are given and do not
    throw.  (On a response already sent the methods of the source
    throw, which the model leaves out.) *)

(** [res.setHeader(name, value)] *)
Definition setHeader (name value : string) : N ApiState unit :=
  fun st =>
    (Normal tt,
     ({| resHeaders := resHeaders (fst st) ++ [(name, value)];
         resStatus := resStatus (fst st);
         resBody := resBody (fst st);
         resEnded := resEnded (fst st) |}, snd st)).

(** [res.status(code)] *)
Definition status (code : Json) : N ApiState unit :=
  fun st =>
    (Normal tt,
     ({| resHeaders := resHeaders (fst st);
         resStatus := Some code;
         resBody := resBody (fst st);
         resEnded := resEnded (fst st) |}, snd st)).

(** [res.json(body)] *)
Definition json (body : Json) : N ApiState unit :=
  fun st =>
    (Normal tt,
     ({| resHeaders := resHeaders (fst st);
         resStatus := resStatus (fst st);
         resBody := Some body;
         resEnded := true |}, snd st)).

(** [res.end()] *)
Definition endResponse : N ApiState unit :=
  fun st =>
    (Normal tt,
     ({| resHeaders := resHeaders (fst st);
         resStatus := resStatus (fst st);
         resBody := resBody (fst st);
         resEnded := true |}, snd st)).

(** *** setCorsHeaders *)

Definition setCorsHeaders : N ApiState unit :=
  setHeader "Access-Control-Allow-Origin" "*" >>>
  setHeader "Access-Control-Allow-Methods" "GET, OPTIONS" >>>
  setHeader "Access-Control-Allow-Headers" "Content-Type, Authorization, X-Tenant-ID" >>>
  setHeader "Access-Control-Allow-Credentials" "true" >>>
  setHeader "Access-Control-Max-Age" "86400".

(** *** handleTenantError *)

Definition handleTenantError (tenantError : option TenantError) : N ApiState unit :=
  match tenantError with
  | None =>
      status (JsonNum 400) >>>
      json (JsonObj [("error", JsonStr "Unknown tenant error");
                     ("message", JsonStr "An unknown error occurred during tenant resolution")])
  | Some tenantError =>
      let statusCodeMap :=
        [("INVALID_SUBDOMAIN", JsonNum 400);
         ("INVALID_SUBDOMAIN_FORMAT", JsonNum 400);
         ("TENANT_NOT_FOUND", JsonNum 404);
         ("TENANT_RESOLUTION_ERROR", JsonNum 500)] in
      let statusCode := propertyOr statusCodeMap (code tenantError) (JsonNum 400) in
      status statusCode >>>
      json (JsonObj [("error", JsonStr (code tenantError));
                     ("message", JsonStr (message tenantError));
                     ("details", JsonStr (details tenantError));
                     ("suggestion", getTenantErrorSuggestion (code tenantError))])
  end.

(** *** handler *)

Definition defaultConfig : gmap string ConfigValue :=
  list_to_map
    [("maxPhrasesPerRequest", CNum 50);
     ("cacheTtl", CNum 300);
     ("enablePagination", CBool true);
     ("enableSorting", CBool true);
     ("defaultSortOrder", CStr "created_at")].

(** The request of the route: the method, the parts the middleware
    reads, and the [tenant] property that the last catch reads. *)
Record ApiRequest : Type :=
  { method : string; request : Request; tenantProperty : Slot TenantInfo }.

Definition slotOf {A} (o : option A) : Slot A :=
  match o with Some a => Holds a | None => Null end.

(** The phrase query of the route, [handleGetPhrases], is taken as
    given: any code that builds on the response, uses the world and
    returns or throws. *)
Variable handleGetPhrases :
  ApiRequest -> TenantInfo -> gmap string ConfigValue -> N ApiState unit.

Definition handler (req : ApiRequest) : N ApiState unit :=
  setCorsHeaders >>>
  if String.eqb (method req) "OPTIONS" then
    status (JsonNum 200) >>> endResponse
  else
    tryCatchN
      (let* resolved := liftApi (resolveTenant (request req)) in
       let tenantError := error resolved in
       let tenant := tenant resolved in
       match tenantError, tenant with
       | None, Some tenant =>
           if negb (truthy (hasValidTenantContext
                              {| req_tenant := Holds tenant;
                                 req_tenantError := slotOf tenantError |}))
           then
             status (JsonNum 400) >>>
             json (JsonObj [("error", JsonStr "Invalid tenant context");
                            ("message", JsonStr "Unable to establish valid tenant context for request")])
           else
             let tenantConfig := getTenantConfig (Some tenant) defaultConfig in
             if String.eqb (method req) "GET" then
               handleGetPhrases req tenant tenantConfig
             else
               status (JsonNum 405) >>>
               json (JsonObj [("error", JsonStr "Method not allowed");
                              ("message", JsonStr ("HTTP method " +:+ method req +:+
                                                   " is not supported for this endpoint"));
                              ("allowedMethods", JsonArr [JsonStr "GET"; JsonStr "OPTIONS"])])
       | _, _ => handleTenantError tenantError
       end)
      (fun _ =>
         status (JsonNum 500) >>>
         json (JsonObj [("error", JsonStr "Internal server error");
                        ("message", JsonStr "An unexpected error occurred while processing your request");
                        ("tenantId", JsonStr match tenantProperty req with
                                             | Holds t => if truthy (JStr (id t)) then id t
                                                          else "unknown"
                                             | _ => "unknown"
                                             end)])).

(** The headers that every response of the route carries. *)
Definition corsHeaders : list (string * string) :=
  [("Access-Control-Allow-Origin", "*");
   ("Access-Control-Allow-Methods", "GET, OPTIONS");
   ("Access-Control-Allow-Headers", "Content-Type, Authorization, X-Tenant-ID");
   ("Access-Control-Allow-Credentials", "true");
   ("Access-Control-Max-Age", "86400")].

(** A response with the CORS headers added, and a response answered
    with a status and a body. *)
Definition withCors (res : Response) : Response :=
  {| resHeaders := resHeaders res ++ corsHeaders;
     resStatus := resStatus res;
     resBody := resBody res;
     resEnded := resEnded res |}.

Definition answered (res : Response) (code : Json) (body : Json) : Response :=
  {| resHeaders := resHeaders res;
     resStatus := Some code;
     resBody := Some body;
     resEnded := true |}.

(** The HTTP status that goes with an error code of the middleware. *)
Definition statusOfCode (c : string) : Z :=
  if String.eqb c "TENANT_NOT_FOUND" then 404
  else if String.eqb c "TENANT_RESOLUTION_ERROR" then 500
  else 400.

End WithBackend.

(** A phrase query that answers 200 with an empty list. *)
Definition emptyPhrases
  : ApiRequest -> TenantInfo -> gmap string ConfigValue -> N (Response * St Demo) unit :=
  fun _ _ _ st =>
    (Normal tt,
     ({| resHeaders := resHeaders (fst st);
         resStatus := Some (JsonNum 200);
         resBody := Some (JsonObj [("data", JsonArr [])]);
         resEnded := true |}, snd st)).

(** A phrase query that throws before it touches the response. *)
Definition failingPhrases
  : ApiRequest -> TenantInfo -> gmap string ConfigValue -> N (Response * St Demo) unit :=
  fun _ _ _ st => (Throw "query failed", st).

Definition apiRequestFor (m h : string) : ApiRequest :=
  {| method := m; request := requestFor h; tenantProperty := Undefined |}.

End PhrasesApi.

(* ===================================================================== *)
(** ** Facts about strings *)
(* ===================================================================== *)

Module StringFacts.
Import JsString.

Lemma append_nil (t : string) : "" +:+ t = t.
Proof. reflexivity. Qed.

Lemma append_cons (c : ascii) (s t : string) :
  String c s +:+ t = String c (s +:+ t).
Proof. reflexivity. Qed.

Lemma append_empty_r (s : string) : s +:+ "" = s.
Proof.
  induction s as [|c s IH]; [reflexivity|]. now rewrite append_cons, IH.
Qed.

Lemma append_assoc (s t u : string) : (s +:+ t) +:+ u = s +:+ (t +:+ u).
Proof.
  induction s as [|c s IH]; [reflexivity|]. now rewrite !append_cons, IH.
Qed.

Lemma append_eq_empty (s t : string) : s +:+ t = "" -> s = "" /\ t = "".
Proof.
  destruct s; [rewrite append_nil; now split | rewrite append_cons; discriminate].
Qed.

Lemma append_last_inj (s t : string) (c d : ascii) :
  s +:+ String c "" = t +:+ String d "" -> s = t /\ c = d.
Proof.
  revert t. induction s as [|a s IH]; intros [|b t];
    rewrite ?append_nil, ?append_cons; intros E.
  - injection E as ->. now split.
  - injection E as -> E. destruct t; discriminate.
  - injection E as -> E. destruct s; discriminate.
  - injection E as -> E. destruct (IH _ E) as [-> ->]. now split.
Qed.

Lemma length_append (s t : string) :
  String.length (s +:+ t) = (String.length s + String.length t)%nat.
Proof.
  induction s as [|c s IH]; [reflexivity|].
  rewrite append_cons. simpl. now rewrite IH.
Qed.

(** [split] never returns the empty list. *)
Lemma split_nonempty (sep : ascii) (s : string) : split sep s <> [].
Proof.
  destruct s as [|c s]; simpl; [discriminate|].
  destruct (Ascii.eqb c sep); [discriminate|].
  destruct (split sep s); discriminate.
Qed.

(** Joining the pieces gives the string back. *)
Lemma join_split (sep : ascii) (s : string) : join sep (split sep s) = s.
Proof.
  induction s as [|c s IH]; [reflexivity|].
  simpl. destruct (Ascii.eqb_spec c sep) as [->|Hne].
  - pose proof (split_nonempty sep s) as Hn.
    simpl. destruct (split sep s) as [|p ps]; [contradiction|].
    rewrite append_nil. now rewrite <- IH.
  - pose proof (split_nonempty sep s) as Hn.
    destruct (split sep s) as [|p ps]; [contradiction|].
    destruct ps as [|q qs]; simpl in *; rewrite ?append_cons; now rewrite <- IH.
Qed.

(** No piece contains the separator. *)
Lemma split_pieces (sep : ascii) (s : string) :
  Forall (fun p => hasChar sep p = false) (split sep s).
Proof.
  induction s as [|c s IH]; simpl.
  - constructor; [reflexivity | constructor].
  - destruct (Ascii.eqb_spec c sep) as [->|Hne].
    + constructor; [reflexivity | exact IH].
    + destruct (split sep s) as [|p ps].
      * constructor; [|constructor]. simpl.
        apply Ascii.eqb_neq in Hne. now rewrite Hne.
      * inversion IH as [|? ? Hp Hps]; subst. constructor; [|exact Hps].
        simpl. apply Ascii.eqb_neq in Hne. now rewrite Hne.
Qed.

(** A string that starts with the separator has an empty first piece,
    and only such a string has. *)
Lemma split_head_empty (sep : ascii) (s : string) :
  hd "" (split sep s) = "" <-> s = "" \/ exists rest, s = String sep rest.
Proof.
  destruct s as [|c s]; simpl.
  - split; [now left | reflexivity].
  - destruct (Ascii.eqb_spec c sep) as [->|Hne]; simpl.
    + split; [right; now exists s | reflexivity].
    + destruct (split sep s); simpl; split; try discriminate;
        intros [E | [rest E]]; try discriminate; injection E as E _; contradiction.
Qed.

Lemma listIncludes_In (l : list string) (s : string) :
  listIncludes l s = true <-> In s l.
Proof.
  unfold listIncludes. rewrite existsb_exists. split.
  - intros [x [Hin Heq]]. apply String.eqb_eq in Heq. now subst.
  - intros Hin. exists s. split; [exact Hin | apply String.eqb_refl].
Qed.

End StringFacts.

(* ===================================================================== *)
(** ** The matcher decides the language of a pattern *)
(* ===================================================================== *)

Module RegexFacts.
Import Regex StringFacts.

Lemma lang_empty_nullable (i : bool) (r : regex) (s : string) :
  lang i r s -> s = "" -> nullable r = true.
Proof.
  induction 1 as [ | | r1 r2 s1 s2 _ IH1 _ IH2 | r1 r2 s _ IH | r1 r2 s _ IH
                 | | ]; intros E; simpl; try reflexivity; try discriminate.
  - apply append_eq_empty in E as [E1 E2]. now rewrite IH1, IH2.
  - now rewrite IH.
  - rewrite IH by assumption. apply orb_true_r.
Qed.

Lemma nullable_lang_empty (i : bool) (r : regex) :
  nullable r = true -> lang i r "".
Proof.
  induction r as [ | | | r1 IH1 r2 IH2 | r1 IH1 r2 IH2 | ]; simpl; intros E;
    try discriminate.
  - constructor.
  - apply andb_true_iff in E as [E1 E2].
    change "" with ("" +:+ ""). constructor; auto.
  - apply orb_true_iff in E as [E|E]; [apply lang_alt_l | apply lang_alt_r]; auto.
  - constructor.
Qed.

Lemma deriv_sound (i : bool) (c : ascii) (r : regex) :
  forall s, lang i (deriv i c r) s -> lang i r (String c s).
Proof.
  induction r as [ | | ranges | r1 IH1 r2 IH2 | r1 IH1 r2 IH2 | r1 IH1 ];
    simpl; intros s L.
  - inversion L.
  - inversion L.
  - destruct (inClass i ranges c) eqn:E; inversion L; subst. now constructor.
  - assert (Hcat : forall t, lang i (Cat (deriv i c r1) r2) t ->
                             lang i (Cat r1 r2) (String c t)).
    { intros t Lt. inversion Lt as [ | | ? ? s1 s2 L1 L2 | | | | ]; subst.
      rewrite <- append_cons. constructor; auto. }
    destruct (nullable r1) eqn:N; [|now apply Hcat].
    inversion L as [ | | | ? ? ? La | ? ? ? Lb | | ]; subst; [now apply Hcat|].
    rewrite <- (append_nil (String c s)).
    constructor; [now apply nullable_lang_empty | auto].
  - inversion L; subst; [apply lang_alt_l | apply lang_alt_r]; auto.
  - inversion L as [ | | ? ? s1 s2 L1 L2 | | | | ]; subst.
    rewrite <- append_cons. apply lang_star_cons; auto.
Qed.

Lemma deriv_complete (i : bool) (c : ascii) (r : regex) (s0 : string) :
  lang i r s0 -> forall s, s0 = String c s -> lang i (deriv i c r) s.
Proof.
  induction 1 as [ | ranges d Hd | r1 r2 s1 s2 L1 IH1 L2 IH2
                 | r1 r2 s0 L IH | r1 r2 s0 L IH
                 | r | r s1 s2 L1 IH1 L2 IH2 ]; intros s E; simpl.
  - discriminate.
  - injection E as -> <-. rewrite Hd. constructor.
  - destruct s1 as [|a s1].
    + rewrite append_nil in E.
      rewrite (lang_empty_nullable i r1 "" L1 eq_refl).
      apply lang_alt_r. auto.
    + rewrite append_cons in E. injection E as -> <-.
      assert (Lc : lang i (Cat (deriv i c r1) r2) (s1 +:+ s2))
        by (constructor; auto).
      destruct (nullable r1); [now apply lang_alt_l | exact Lc].
  - apply lang_alt_l. auto.
  - apply lang_alt_r. auto.
  - discriminate.
  - destruct s1 as [|a s1].
    + rewrite append_nil in E. auto.
    + rewrite append_cons in E. injection E as -> <-.
      constructor; auto.
Qed.

(** The matcher accepts exactly the strings of the language. *)
Lemma test_lang (i : bool) (s : string) :
  forall r, test i r s = true <-> lang i r s.
Proof.
  induction s as [|c s IH]; intros r; simpl.
  - split; [apply nullable_lang_empty | intros L; now apply (lang_empty_nullable i r "")].
  - rewrite IH. split; [apply deriv_sound | intros L; now apply (deriv_complete i c r _ L)].
Qed.

Lemma lang_star_class (i : bool) (ranges : list (ascii * ascii)) (s : string) :
  lang i (Star (Class ranges)) s <-> allInClass i ranges s = true.
Proof.
  split.
  - intros L. remember (Star (Class ranges)) as r eqn:Er.
    induction L as [ | | | | | r0 | r0 s1 s2 L1 _ L2 IH2 ]; try discriminate.
    + reflexivity.
    + injection Er as ->. inversion L1; subst.
      rewrite append_cons, append_nil. simpl.
      apply andb_true_iff. split; [assumption | now apply IH2].
  - induction s as [|c s IH]; simpl; intros E; [constructor|].
    apply andb_true_iff in E as [Ec Es].
    change (String c s) with (String c "" +:+ s).
    apply lang_star_cons; [now constructor | auto].
Qed.

End RegexFacts.

(* ===================================================================== *)
(** ** The extractor and the validator *)
(* ===================================================================== *)

Module ParsingFacts.
Import JsString Regex StringFacts RegexFacts Tenant.

(** *** Letters and their capitals *)

Lemma lowerChar_capital (c : ascii) :
  isCapital c = true -> lowerChar c = ascii_of_nat (nat_of_ascii c + 32).
Proof. unfold isCapital, lowerChar. now intros ->. Qed.

Lemma lowerChar_small (c : ascii) : isCapital c = false -> lowerChar c = c.
Proof. unfold isCapital, lowerChar. now intros ->. Qed.

(** Case analysis on every comparison of naturals in sight. *)
Ltac split_comparisons :=
  repeat match goal with
         | |- context [(?a <=? ?b)%nat] => destruct (Nat.leb_spec a b)
         | H : context [(?a <=? ?b)%nat] |- _ => destruct (Nat.leb_spec a b)
         | |- context [(?a =? ?b)%nat] => destruct (Nat.eqb_spec a b)
         | H : context [(?a =? ?b)%nat] |- _ => destruct (Nat.eqb_spec a b)
         end;
  simpl in *; try reflexivity; try discriminate; try lia.

Lemma capital_bounds (c : ascii) :
  isCapital c = true -> (65 <= nat_of_ascii c <= 222)%nat.
Proof. unfold isCapital. intros E. split_comparisons. Qed.

Lemma capital_shifted (c d : ascii) :
  isCapital c = true -> nat_of_ascii d = (nat_of_ascii c + 32)%nat ->
  isCapital d = false.
Proof. unfold isCapital. intros E Hd. rewrite Hd. split_comparisons. Qed.

Lemma ascii_of_nat_shift (c d : ascii) :
  nat_of_ascii d = (nat_of_ascii c + 32)%nat ->
  ascii_of_nat (nat_of_ascii c + 32) = d.
Proof. intros <-. apply ascii_nat_embedding. Qed.

Lemma sameLetter_lowerChar (c d : ascii) :
  sameLetter c d = true <-> lowerChar c = lowerChar d.
Proof.
  unfold sameLetter. split.
  - intros E. apply orb_true_iff in E as [E|E]; [apply orb_true_iff in E as [E|E]|].
    + apply Ascii.eqb_eq in E. now subst.
    + apply andb_true_iff in E as [Hc Hd]. apply Nat.eqb_eq in Hd.
      rewrite (lowerChar_capital c Hc), (ascii_of_nat_shift c d Hd).
      symmetry. apply lowerChar_small. now apply (capital_shifted c d).
    + apply andb_true_iff in E as [Hd Hc]. apply Nat.eqb_eq in Hc.
      rewrite (lowerChar_capital d Hd), (ascii_of_nat_shift d c Hc).
      apply lowerChar_small. now apply (capital_shifted d c).
  - intros E. destruct (isCapital c) eqn:Hc, (isCapital d) eqn:Hd.
    + rewrite (lowerChar_capital c Hc), (lowerChar_capital d Hd) in E.
      apply (f_equal nat_of_ascii) in E.
      pose proof (capital_bounds c Hc). pose proof (capital_bounds d Hd).
      rewrite !nat_ascii_embedding in E by lia.
      assert (c = d) as ->.
      { rewrite <- (ascii_nat_embedding c), <- (ascii_nat_embedding d).
        f_equal. lia. }
      now rewrite Ascii.eqb_refl.
    + rewrite (lowerChar_capital c Hc), (lowerChar_small d Hd) in E.
      apply (f_equal nat_of_ascii) in E.
      pose proof (capital_bounds c Hc).
      rewrite nat_ascii_embedding in E by lia.
      rewrite <- E, Nat.eqb_refl. simpl. now rewrite orb_true_r.
    + rewrite (lowerChar_small c Hc), (lowerChar_capital d Hd) in E.
      apply (f_equal nat_of_ascii) in E.
      pose proof (capital_bounds d Hd).
      rewrite nat_ascii_embedding in E by lia.
      rewrite E, Nat.eqb_refl. simpl. now rewrite orb_true_r.
    + rewrite (lowerChar_small c Hc), (lowerChar_small d Hd) in E. subst.
      now rewrite Ascii.eqb_refl.
Qed.

(** Two strings are equal up to the case of their letters exactly when
    [toLowerCase] sends them to the same string. *)
Lemma equalsIgnoreCase_toLowerCase (s t : string) :
  equalsIgnoreCase s t = true <-> toLowerCase s = toLowerCase t.
Proof.
  revert t. induction s as [|c s IH]; intros [|d t]; simpl;
    try (split; [reflexivity || discriminate | reflexivity || discriminate]).
  rewrite andb_true_iff, sameLetter_lowerChar, IH. split.
  - intros [-> ->]. reflexivity.
  - intros E. injection E as E1 E2. now split.
Qed.

(** *** The pattern of the validator *)

Lemma inClass_alnum (c : ascii) : inClass true alnum c = isLetterOrDigit c.
Proof.
  destruct c as [b0 b1 b2 b3 b4 b5 b6 b7];
    destruct b0, b1, b2, b3, b4, b5, b6, b7; reflexivity.
Qed.

Lemma inClass_alnumHyphen (c : ascii) :
  inClass true alnumHyphen c = isLetterOrDigit c || isHyphen c.
Proof.
  destruct c as [b0 b1 b2 b3 b4 b5 b6 b7];
    destruct b0, b1, b2, b3, b4, b5, b6, b7; reflexivity.
Qed.

Lemma allInClass_alnumHyphen (s : string) :
  allInClass true alnumHyphen s = allLabelChars s.
Proof.
  induction s as [|c s IH]; simpl; [reflexivity|].
  now rewrite inClass_alnumHyphen, IH.
Qed.

(** The pattern accepts exactly the well-formed labels. *)
Lemma subdomainRegex_shape (s : string) :
  test true subdomainRegex s = true <-> wellFormedLabel s.
Proof.
  rewrite test_lang. unfold subdomainRegex, Opt, wellFormedLabel. split.
  - intros L.
    inversion L as [ | | ? ? s1 s2 L1 L2 | | | | ]; subst.
    inversion L1 as [ | ? c Hc | | | | | ]; subst.
    exists c, s2. rewrite append_cons, append_nil, <- inClass_alnum.
    split; [reflexivity | split; [assumption|]].
    inversion L2 as [ | | | ? ? ? La | ? ? ? Lb | | ]; subst.
    + inversion La as [ | | ? ? m e Lm Le | | | | ]; subst.
      inversion Le as [ | ? d Hd | | | | | ]; subst.
      right. exists m, d. rewrite <- allInClass_alnumHyphen, <- inClass_alnum.
      split; [reflexivity | split; [|assumption]].
      now apply lang_star_class.
    + inversion Lb; subst. now left.
  - intros (c & rest & -> & Hc & Hrest).
    change (String c rest) with (String c "" +:+ rest).
    constructor; [constructor; now rewrite inClass_alnum|].
    destruct Hrest as [-> | (m & d & -> & Hm & Hd)].
    + apply lang_alt_r. constructor.
    + apply lang_alt_l. constructor.
      * apply lang_star_class. now rewrite allInClass_alnumHyphen.
      * constructor. now rewrite inClass_alnum.
Qed.

Lemma regex_rejects_leading_hyphen (rest : string) :
  test true subdomainRegex (String "-" rest) = false.
Proof.
  apply not_true_is_false. rewrite subdomainRegex_shape.
  intros (c & r & E & Hc & _). injection E as <- _. discriminate.
Qed.

Lemma regex_rejects_trailing_hyphen (front : string) :
  test true subdomainRegex (front +:+ "-") = false.
Proof.
  apply not_true_is_false. rewrite subdomainRegex_shape.
  intros (c & r & E & Hc & [-> | (m & d & -> & _ & Hd)]).
  - destruct front as [|a front]; rewrite ?append_nil, ?append_cons in E.
    + injection E as <-. discriminate.
    + injection E as _ E. destruct front; discriminate.
  - rewrite <- append_cons in E. apply append_last_inj in E as [_ <-].
    discriminate.
Qed.

(** *** The validator *)

Lemma isValidSubdomain_string (s : string) :
  isValidSubdomain (JStr s) =
    negb (String.eqb s "")
    && negb ((Z.of_nat (String.length s) <? 2) || (Z.of_nat (String.length s) >? 50))
    && test true subdomainRegex s
    && negb (listIncludes reservedSubdomains (toLowerCase s)).
Proof.
  unfold isValidSubdomain. simpl.
  destruct (String.eqb s ""); simpl; [reflexivity|].
  destruct ((Z.of_nat (String.length s) <? 2) || (Z.of_nat (String.length s) >? 50));
    simpl; [reflexivity|].
  destruct (test true subdomainRegex s); simpl; [|reflexivity].
  now destruct (listIncludes reservedSubdomains (toLowerCase s)).
Qed.

Lemma isValidSubdomain_is_string (v : JsVal) :
  isValidSubdomain v = true -> exists s, v = JStr s.
Proof.
  destruct v; unfold isValidSubdomain; simpl; rewrite ?orb_true_r;
    try discriminate.
  intros _. now eexists.
Qed.

Lemma reserved_lowercase (w : string) :
  In w reservedSubdomains -> toLowerCase w = w.
Proof.
  unfold reservedSubdomains. simpl.
  intros H. repeat destruct H as [<- | H]; try reflexivity. contradiction.
Qed.

Lemma excluded_lowercase (w : string) :
  In w excludedSubdomains -> toLowerCase w = w.
Proof.
  unfold excludedSubdomains. simpl.
  intros H. repeat destruct H as [<- | H]; try reflexivity. contradiction.
Qed.

(** Membership after [toLowerCase] is membership up to case. *)
Lemma includes_ignore_case (l : list string) (s : string) :
  (forall w, In w l -> toLowerCase w = w) ->
  listIncludes l (toLowerCase s) = true <->
  exists w, In w l /\ equalsIgnoreCase s w = true.
Proof.
  intros Hl. rewrite listIncludes_In. split.
  - intros Hin. exists (toLowerCase s). split; [assumption|].
    apply equalsIgnoreCase_toLowerCase. symmetry. now apply Hl.
  - intros (w & Hin & E). apply equalsIgnoreCase_toLowerCase in E.
    rewrite E, (Hl w Hin). assumption.
Qed.

(** The validator accepts exactly the well-formed labels of 2 to 50
    characters that are not reserved words. *)
Lemma isValidSubdomain_spec (s : string) :
  isValidSubdomain (JStr s) = true <->
  (2 <= String.length s <= 50)%nat /\ wellFormedLabel s /\
  ~ (exists w, In w reservedSubdomains /\ equalsIgnoreCase s w = true).
Proof.
  rewrite isValidSubdomain_string, !andb_true_iff, !negb_true_iff.
  rewrite subdomainRegex_shape, orb_false_iff.
  rewrite <- (includes_ignore_case _ s reserved_lowercase).
  rewrite not_true_iff_false, Z.ltb_ge, Z.gtb_ltb, Z.ltb_ge, String.eqb_neq.
  split.
  - intros [[[_ [? ?]] ?] ?]. repeat split; try assumption; lia.
  - intros [[? ?] [? ?]]. repeat split; try assumption; try lia.
    intros ->. simpl in *. lia.
Qed.

(** C7: for every string [s], the validator returns false whenever [s]
    is shorter than 2 characters, longer than 50 characters, begins with
    a hyphen, ends with a hyphen, or equals one of the reserved words up
    to the case of its letters. *)
Theorem isValidSubdomain_rejects (s : string) :
  (String.length s < 2)%nat \/
  (50 < String.length s)%nat \/
  (exists rest, s = String "-" rest) \/
  (exists front, s = front +:+ "-") \/
  (exists w, In w reservedSubdomains /\ equalsIgnoreCase s w = true) ->
  isValidSubdomain (JStr s) = false.
Proof.
  intros Hs. rewrite isValidSubdomain_string.
  destruct Hs as [Hlen | [Hlen | [[rest ->] | [[front ->] | Hres]]]].
  - assert (E : (Z.of_nat (String.length s) <? 2) = true) by (apply Z.ltb_lt; lia).
    rewrite E. simpl. now rewrite andb_false_r.
  - assert (E : (Z.of_nat (String.length s) >? 50) = true)
      by (rewrite Z.gtb_ltb; apply Z.ltb_lt; lia).
    rewrite E, orb_true_r. simpl. now rewrite andb_false_r.
  - rewrite regex_rejects_leading_hyphen. now rewrite andb_false_r.
  - rewrite regex_rejects_trailing_hyphen. now rewrite andb_false_r.
  - apply (includes_ignore_case _ s reserved_lowercase) in Hres.
    rewrite Hres. simpl. now rewrite andb_false_r.
Qed.

Lemma isValidSubdomain_rejects_witness :
  (exists w, In w reservedSubdomains /\ equalsIgnoreCase "Admin" w = true) /\
  (exists front, "acme-" = front +:+ "-") /\
  isValidSubdomain (JStr "Admin") = false /\
  isValidSubdomain (JStr "acme-") = false.
Proof.
  assert (H1 : exists w, In w reservedSubdomains /\ equalsIgnoreCase "Admin" w = true).
  { exists "admin". split; [simpl; tauto | reflexivity]. }
  assert (H2 : exists front, "acme-" = front +:+ "-").
  { exists "acme". reflexivity. }
  split; [exact H1 | split; [exact H2 | split]].
  - apply (isValidSubdomain_rejects "Admin"). right; right; right; right. exact H1.
  - apply (isValidSubdomain_rejects "acme-"). right; right; right; left. exact H2.
Defined.

(** *** The extractor on production hosts *)

(** The first segment of a host name is excluded when it equals one of
    www, api, admin, app up to the case of its letters. *)
Lemma excluded_ignore_case (s : string) :
  listIncludes excludedSubdomains (toLowerCase s) = true <->
  exists w, In w excludedSubdomains /\ equalsIgnoreCase s w = true.
Proof. apply includes_ignore_case, excluded_lowercase. Qed.

Lemma extractSubdomain_string_host (req : Request) (h : Headers) (hostStr : string) :
  headers req = Some h ->
  jsOr (host h) (x_forwarded_host h) = JStr hostStr ->
  isDevelopmentHost (hostnameOf hostStr) = false ->
  (3 <= length (split "." (hostnameOf hostStr)))%nat ->
  extractSubdomain req =
    if listIncludes excludedSubdomains
         (toLowerCase (hd "" (split "." (hostnameOf hostStr))))
    then Normal JNull
    else Normal (JStr (hd "" (split "." (hostnameOf hostStr)))).
Proof.
  intros Hh Hhost Hdev Hseg. unfold extractSubdomain. rewrite Hh, Hhost.
  assert (Hne : hostStr <> "").
  { intros ->. simpl in Hseg. lia. }
  apply String.eqb_neq in Hne.
  change (truthy (JStr hostStr)) with (negb (String.eqb hostStr "")).
  rewrite Hne. cbn [negb].
  unfold isDevelopmentHost, hostnameOf in *. cbv zeta. rewrite Hdev.
  apply Nat.leb_le in Hseg. now rewrite Hseg.
Qed.

(** C6, as the code has it: for every host name that contains neither
    "localhost" nor "127.0.0.1" and has at least 3 dot-separated segments,
    the extractor returns the first segment when that segment does not
    match www, api, admin or app up to case, and returns nothing (null)
    when it does. *)
Theorem extractSubdomain_production
    (req : Request) (h : Headers) (hostStr : string) :
  headers req = Some h ->
  jsOr (host h) (x_forwarded_host h) = JStr hostStr ->
  isDevelopmentHost (hostnameOf hostStr) = false ->
  (3 <= length (split "." (hostnameOf hostStr)))%nat ->
  let first := hd "" (split "." (hostnameOf hostStr)) in
  (~ (exists w, In w excludedSubdomains /\ equalsIgnoreCase first w = true) ->
   extractSubdomain req = Normal (JStr first)) /\
  ((exists w, In w excludedSubdomains /\ equalsIgnoreCase first w = true) ->
   extractSubdomain req = Normal JNull).
Proof.
  intros Hh Hhost Hdev Hseg first.
  rewrite (extractSubdomain_string_host req h hostStr Hh Hhost Hdev Hseg).
  fold first. rewrite <- excluded_ignore_case. split; intros E.
  - apply not_true_is_false in E. now rewrite E.
  - now rewrite E.
Qed.

Lemma extractSubdomain_production_witness :
  extractSubdomain (requestFor "acme.example.com:3000") = Normal (JStr "acme") /\
  extractSubdomain (requestFor "WWW.example.com") = Normal JNull.
Proof.
  split.
  - refine (proj1 (extractSubdomain_production
                     (requestFor "acme.example.com:3000")
                     {| host := JStr "acme.example.com:3000";
                        x_forwarded_host := JUndefined |}
                     "acme.example.com:3000" eq_refl eq_refl eq_refl _) _).
    + simpl. lia.
    + rewrite <- excluded_ignore_case. simpl. discriminate.
  - refine (proj2 (extractSubdomain_production
                     (requestFor "WWW.example.com")
                     {| host := JStr "WWW.example.com";
                        x_forwarded_host := JUndefined |}
                     "WWW.example.com" eq_refl eq_refl eq_refl _) _).
    + simpl. lia.
    + exists "www". split; [simpl; tauto | reflexivity].
Defined.

(** C6 as stated fails on a development host: "127.0.0.1" has four
    segments and its first segment, "127", is not excluded, yet the
    extractor answers "demo"; "www.localhost.test" starts with an
    excluded segment, yet the extractor answers "demo" as well. *)
Lemma extractSubdomain_development_counterexample :
  (3 <= length (split "." (hostnameOf "127.0.0.1")))%nat /\
  hd "" (split "." (hostnameOf "127.0.0.1")) = "127" /\
  listIncludes excludedSubdomains (toLowerCase "127") = false /\
  extractSubdomain (requestFor "127.0.0.1") = Normal (JStr "demo") /\
  extractSubdomain (requestFor "127.0.0.1") <> Normal (JStr "127") /\
  (3 <= length (split "." (hostnameOf "www.localhost.test")))%nat /\
  hd "" (split "." (hostnameOf "www.localhost.test")) = "www" /\
  extractSubdomain (requestFor "www.localhost.test") <> Normal JNull.
Proof.
  repeat split; try reflexivity; try (simpl; lia); vm_compute; discriminate.
Qed.

End ParsingFacts.

(* ===================================================================== *)
(** ** The lookup service and the orchestrator *)
(* ===================================================================== *)

Module ResolutionFacts.
Import JsString StringFacts ParsingFacts Tenant.

Section WithBackend.
Context {W : Type} `{Backend W}.

Lemma tenantInfoOf_status (s : string) (row : TenantRow) :
  status (tenantInfoOf s row) = tenant_status row.
Proof. reflexivity. Qed.

(** The remote query always returns, in one of the four ways of
    [Fetched]. *)
Lemma fetchTenant_Fetched (s : string) (st : St W) :
  exists reply r st',
    fetchTenant s (cacheKeyOf s) st = (Normal r, st') /\ Fetched s st reply r st'.
Proof.
  unfold fetchTenant, tryCatch, bind, rpcLookup.
  destruct (rpc_get_tenant_by_subdomain s (world st)) as [reply w] eqn:Erpc.
  destruct reply as [|d [e|]].
  - eexists _, _, _. split; [reflexivity|]. now apply Fetched_failed.
  - eexists _, _, _. split; [reflexivity|]. now apply Fetched_failed.
  - destruct d as [[|row rows]|].
    + unfold dateNow, cacheSet, ret. simpl.
      destruct (date_now w) as [now w'] eqn:Enow.
      eexists _, _, _. split; [reflexivity|].
      eapply Fetched_absent; eauto.
    + destruct (String.eqb_spec (tenant_status row) "active") as [Eact|Eact]; simpl.
      * unfold dateNow, cacheSet, ret. simpl.
        destruct (date_now w) as [now w'] eqn:Enow.
        eexists _, _, _. split; [reflexivity|].
        eapply Fetched_active; eauto.
      * eexists _, _, _. split; [reflexivity|].
        now apply Fetched_inactive.
    + unfold dateNow, cacheSet, ret. simpl.
      destruct (date_now w) as [now w'] eqn:Enow.
      eexists _, _, _. split; [reflexivity|].
      eapply Fetched_absent; eauto.
Qed.

(** [getTenantInfo] always returns, in one of the ways of [Looked]. *)
Lemma getTenantInfo_Looked (s : string) (st : St W) :
  exists r st', getTenantInfo s st = (Normal r, st') /\ Looked s st r st'.
Proof.
  unfold getTenantInfo, bind, cacheGet.
  destruct (tenantCache st !! cacheKeyOf s) as [entry|] eqn:Ecache.
  - unfold dateNow. destruct (date_now (world st)) as [now w] eqn:Enow.
    destruct (Z.ltb_spec (now - timestamp entry) CACHE_TTL) as [Hfresh|Hstale].
    + eexists _, _. split; [reflexivity|]. eapply Looked_fresh; eauto.
    + destruct (fetchTenant_Fetched s (withWorld st w)) as (reply & r & st' & E & F).
      exists r, st'. split; [exact E|]. eapply Looked_stale; eauto.
  - destruct (fetchTenant_Fetched s st) as (reply & r & st' & E & F).
    exists r, st'. split; [exact E|]. eapply Looked_missing; eauto.
Qed.

Lemma getTenantInfo_inv (s : string) (st : St W) c st' :
  getTenantInfo s st = (c, st') -> exists r, c = Normal r /\ Looked s st r st'.
Proof.
  intros E. destruct (getTenantInfo_Looked s st) as (r & st1 & E1 & L).
  rewrite E in E1. injection E1 as -> ->. now exists r.
Qed.

(** What a query leaves in the list of calls and in the cache. *)
Lemma Fetched_calls (s : string) (st : St W) reply r st' :
  Fetched s st reply r st' -> calls st' = calls st ++ [EvLookup s reply].
Proof. now destruct 1. Qed.

Lemma Looked_calls (s : string) (st : St W) r st' :
  Looked s st r st' ->
  calls st' = calls st \/ exists reply, calls st' = calls st ++ [EvLookup s reply].
Proof.
  destruct 1 as [ | ? ? ? ? ? ? _ _ _ F | ? ? ? _ F ].
  - now left.
  - right. eexists. apply (Fetched_calls _ _ _ _ _ F).
  - right. eexists. apply (Fetched_calls _ _ _ _ _ F).
Qed.

Lemma calls_grow_neq (evs : list Event) (ev : Event) : evs <> evs ++ [ev].
Proof.
  intros E. apply (f_equal (@length Event)) in E.
  rewrite length_app in E. simpl in E. lia.
Qed.

Lemma calls_last_inj (evs : list Event) (e1 e2 : Event) :
  evs ++ [e1] = evs ++ [e2] -> e1 = e2.
Proof. intros E. apply app_inv_head in E. now injection E. Qed.

Lemma remoteLookups_app (evs1 evs2 : list Event) :
  remoteLookups (evs1 ++ evs2) = (remoteLookups evs1 + remoteLookups evs2)%nat.
Proof.
  induction evs1 as [|[? ?|? ?] evs1 IH]; simpl; [reflexivity | |]; now rewrite IH.
Qed.

(** A call that issued the query [EvLookup s reply] ran that query from
    a state with the cache and the calls of the start. *)
Lemma Looked_fetched (s : string) (st : St W) r st' reply :
  Looked s st r st' ->
  calls st' = calls st ++ [EvLookup s reply] ->
  exists st0,
    Fetched s st0 reply r st' /\
    tenantCache st0 = tenantCache st /\ calls st0 = calls st.
Proof.
  intros L Hcalls.
  destruct L as [ entry now w _ _ _
                | entry now w reply' r st' _ _ _ F
                | reply' r st' _ F ].
  - simpl in Hcalls. now apply calls_grow_neq in Hcalls.
  - pose proof (Fetched_calls _ _ _ _ _ F) as Hc. simpl in Hc.
    rewrite Hc in Hcalls. apply calls_last_inj in Hcalls.
    injection Hcalls as ->. now exists (withWorld st w).
  - pose proof (Fetched_calls _ _ _ _ _ F) as Hc.
    rewrite Hc in Hcalls. apply calls_last_inj in Hcalls.
    injection Hcalls as ->. now exists st.
Qed.

Lemma Fetched_failed_inv (s : string) (st : St W) reply r st' :
  Fetched s st reply r st' -> lookupFailed reply ->
  r = None /\ tenantCache st' = tenantCache st.
Proof. destruct 1; simpl; intros Hf; try contradiction. now split. Qed.

(** C3: when the remote lookup issued by [getTenantInfo] fails (the call
    rejects, or its reply carries an error), [getTenantInfo] returns
    nothing and the cache is the same after the call as before it. *)
Theorem getTenantInfo_failed_lookup
    (s : string) (st : St W) c st' (reply : LookupReply) :
  getTenantInfo s st = (c, st') ->
  calls st' = calls st ++ [EvLookup s reply] ->
  lookupFailed reply ->
  c = Normal None /\ tenantCache st' = tenantCache st.
Proof.
  intros E Hcalls Hfail.
  apply getTenantInfo_inv in E as (r & -> & L).
  destruct (Looked_fetched s st r st' reply L Hcalls) as (st0 & F & Hcache & _).
  destruct (Fetched_failed_inv s st0 reply r st' F Hfail) as [-> Hc].
  split; [reflexivity | congruence].
Qed.

(** What a successful lookup does, by the rows of its reply. *)
Lemma getTenantInfo_reply_cases
    (s : string) (st : St W) c st' (d : option (list TenantRow)) :
  getTenantInfo s st = (c, st') ->
  calls st' = calls st ++ [EvLookup s (LookupResolved d None)] ->
  (d = None \/ d = Some [] ->
   c = Normal None /\
   exists t, tenantCache st' =
             <[cacheKeyOf s := {| data := None; timestamp := t |}]> (tenantCache st)) /\
  (forall row rows, d = Some (row :: rows) -> tenant_status row = "active" ->
   c = Normal (Some (tenantInfoOf s row)) /\
   exists t, tenantCache st' =
             <[cacheKeyOf s := {| data := Some (tenantInfoOf s row); timestamp := t |}]>
               (tenantCache st)) /\
  (forall row rows, d = Some (row :: rows) -> tenant_status row <> "active" ->
   c = Normal None /\ tenantCache st' = tenantCache st).
Proof.
  intros E Hcalls.
  apply getTenantInfo_inv in E as (r & -> & L).
  destruct (Looked_fetched s st r st' _ L Hcalls) as (st0 & F & Hcache & _).
  inversion F as [ reply w _ Hfail | d' w now w' _ Hd _
                 | row' rows' w _ Hst | row' rows' w now w' _ Hst _ ]; subst.
  - simpl in Hfail. contradiction.
  - split; [|split].
    + intros _. split; [reflexivity|]. exists now. simpl. now rewrite Hcache.
    + intros row rows ->. destruct Hd; discriminate.
    + intros row rows ->. destruct Hd; discriminate.
  - split; [|split].
    + intros [Hd|Hd]; discriminate.
    + intros row rows Hd Hact. injection Hd as <- <-. contradiction.
    + intros row rows Hd _. split; [reflexivity|]. simpl. exact Hcache.
  - split; [|split].
    + intros [Hd|Hd]; discriminate.
    + intros row rows Hd _. injection Hd as <- <-.
      split; [reflexivity|]. exists now. simpl. now rewrite Hcache.
    + intros row rows Hd Hact. injection Hd as <- <-. contradiction.
Qed.

(** A first row that is not active is answered with nothing, and the
    cache is left as it was. *)
Lemma getTenantInfo_inactive_reply
    (s : string) (st : St W) c st' (row : TenantRow) (rows : list TenantRow) :
  getTenantInfo s st = (c, st') ->
  calls st' = calls st ++ [EvLookup s (LookupResolved (Some (row :: rows)) None)] ->
  tenant_status row <> "active" ->
  c = Normal None /\ tenantCache st' = tenantCache st.
Proof.
  intros E Hcalls Hst.
  exact (proj2 (proj2 (getTenantInfo_reply_cases s st c st' _ E Hcalls))
           row rows eq_refl Hst).
Qed.

(** C2, as the code has it: when the remote lookup issued by
    [getTenantInfo] succeeds with no row or with an active first row, the
    result is stored in the cache before returning: a reply without rows
    is stored as "not found", an active first row is stored as its
    record, and the stored value is the one returned. *)
Theorem getTenantInfo_caches_reply
    (s : string) (st : St W) c st' (d : option (list TenantRow)) :
  getTenantInfo s st = (c, st') ->
  calls st' = calls st ++ [EvLookup s (LookupResolved d None)] ->
  (d = None \/ d = Some [] ->
   c = Normal None /\
   exists t, tenantCache st' =
             <[cacheKeyOf s := {| data := None; timestamp := t |}]> (tenantCache st)) /\
  (forall row rows, d = Some (row :: rows) -> tenant_status row = "active" ->
   c = Normal (Some (tenantInfoOf s row)) /\
   exists t, tenantCache st' =
             <[cacheKeyOf s := {| data := Some (tenantInfoOf s row); timestamp := t |}]>
               (tenantCache st)).
Proof.
  intros E Hcalls.
  destruct (getTenantInfo_reply_cases s st c st' d E Hcalls) as (H1 & H2 & _).
  now split.
Qed.

Lemma Fetched_value (s : string) (st1 st2 : St W) reply1 reply2 r1 r2 st1' st2' :
  world st1 = world st2 ->
  Fetched s st1 reply1 r1 st1' -> Fetched s st2 reply2 r2 st2' ->
  reply1 = reply2 /\ r1 = r2.
Proof.
  intros Hw F1 F2.
  destruct F1 as [ reply w E1 Hf | d w now w' E1 Hd _
                 | row rows w E1 Hst | row rows w now w' E1 Hst _ ];
    destruct F2 as [ reply2' w2 E2 Hf2 | d2 w2 now2 w2' E2 Hd2 _
                   | row2 rows2 w2 E2 Hst2 | row2 rows2 w2 now2 w2' E2 Hst2 _ ];
    rewrite Hw, E2 in E1; inversion E1; subst; simpl in *;
    try contradiction; try (now split);
    try (destruct Hd; discriminate); try (destruct Hd2; discriminate).
Qed.

(** C5: when the cache holds an entry for the identifier and the clock
    read by the lookup is at least the TTL past the entry's time stamp,
    [getTenantInfo] issues a remote query and returns what a lookup
    without any cached entry returns, not the cached value. *)
Theorem getTenantInfo_stale_refetch
    (s : string) (st : St W) (entry : CacheEntry) (now : Z) (w : W) :
  tenantCache st !! cacheKeyOf s = Some entry ->
  date_now (world st) = (now, w) ->
  CACHE_TTL <= now - timestamp entry ->
  exists r st' reply,
    getTenantInfo s st = (Normal r, st') /\
    fst (rpc_get_tenant_by_subdomain s w) = reply /\
    calls st' = calls st ++ [EvLookup s reply] /\
    remoteLookups (calls st') = S (remoteLookups (calls st)) /\
    fst (getTenantInfo s
           {| world := w;
              tenantCache := delete (cacheKeyOf s) (tenantCache st);
              calls := calls st |}) = Normal r.
Proof.
  intros Hentry Hnow Hstale.
  destruct (getTenantInfo_Looked s st) as (r & st' & E & L).
  destruct L as [ entry' now' w' He Hn Hfresh
                | entry' now' w' reply r st' He Hn _ F
                | reply r st' He _ ].
  - rewrite Hentry in He. injection He as <-.
    rewrite Hnow in Hn. injection Hn as <- <-. lia.
  - rewrite Hnow in Hn. injection Hn as <- <-.
    exists r, st', reply. split; [exact E|].
    pose proof (Fetched_calls _ _ _ _ _ F) as Hc. simpl in Hc.
    assert (Hreply : fst (rpc_get_tenant_by_subdomain s w) = reply).
    { destruct F as [? ? Er|? ? ? ? Er|? ? ? Er|? ? ? ? ? Er];
        simpl in Er; now rewrite Er. }
    split; [exact Hreply | split; [exact Hc | split]].
    + rewrite Hc, remoteLookups_app. simpl. lia.
    + set (st2 := {| world := w; tenantCache := delete (cacheKeyOf s) (tenantCache st);
                     calls := calls st |}).
      destruct (getTenantInfo_Looked s st2) as (r2 & st2' & E2 & L2).
      rewrite E2. simpl. f_equal.
      destruct L2 as [ e2 ? ? He2 | e2 ? ? ? ? ? He2 | reply2 r2 st2' _ F2 ].
      * simpl in He2. rewrite lookup_delete_eq in He2. discriminate.
      * simpl in He2. rewrite lookup_delete_eq in He2. discriminate.
      * symmetry. now apply (Fetched_value s (withWorld st w) st2 _ _ _ _ _ _ eq_refl F F2).
  - rewrite Hentry in He. discriminate.
Qed.

(** A call that issued the query [EvLookup s reply] ran that query in
    the world [queryWorld s st]. *)
Lemma Looked_fetched_at (s : string) (st : St W) r st' reply :
  Looked s st r st' ->
  calls st' = calls st ++ [EvLookup s reply] ->
  Fetched s (withWorld st (queryWorld s st)) reply r st'.
Proof.
  intros L Hcalls.
  destruct L as [ entry now w _ _ _
                | entry now w reply' r st' He Hn _ F
                | reply' r st' He F ].
  - simpl in Hcalls. now apply calls_grow_neq in Hcalls.
  - pose proof (Fetched_calls _ _ _ _ _ F) as Hc. simpl in Hc.
    rewrite Hc in Hcalls. apply calls_last_inj in Hcalls.
    injection Hcalls as ->.
    unfold queryWorld. rewrite He, Hn. exact F.
  - pose proof (Fetched_calls _ _ _ _ _ F) as Hc.
    rewrite Hc in Hcalls. apply calls_last_inj in Hcalls.
    injection Hcalls as ->.
    unfold queryWorld. rewrite He. now destruct st.
Qed.

(** C4, as the code has it, for two consecutive calls of [getTenantInfo]
    for one identifier.  When the first call is served from the cache,
    the two calls issue at most one remote call in total, whenever the
    second is made.  When the remote lookup of the first call succeeds
    with no row or with an active first row, the value returned is
    cached with the reading of the clock taken by that call after the
    reply as time stamp, and a second call whose reading of the clock is
    less than the TTL past that reading returns the same value from the
    cache without a remote call, so that the two calls issue exactly one
    remote call. *)
Theorem getTenantInfo_twice (s : string) (st0 : St W) c1 st1 :
  getTenantInfo s st0 = (c1, st1) ->
  (calls st1 = calls st0 ->
   forall w,
     (remoteLookups (calls (snd (getTenantInfo s (withWorld st1 w))))
      <= remoteLookups (calls st0) + 1)%nat) /\
  (forall d,
     calls st1 = calls st0 ++ [EvLookup s (LookupResolved d None)] ->
     cacheableRows d ->
     exists r1,
       c1 = Normal r1 /\
       tenantCache st1 !! cacheKeyOf s
       = Some {| data := r1; timestamp := readingAfterReply s st0 |} /\
       forall w now w',
         date_now w = (now, w') ->
         now - readingAfterReply s st0 < CACHE_TTL ->
         getTenantInfo s (withWorld st1 w) = (Normal r1, withWorld st1 w') /\
         calls (withWorld st1 w') = calls st1 /\
         remoteLookups (calls (withWorld st1 w')) = (remoteLookups (calls st0) + 1)%nat).
Proof.
  intros E.
  apply getTenantInfo_inv in E as (r & -> & L).
  split.
  - intros Hsame w.
    destruct (getTenantInfo_Looked s (withWorld st1 w)) as (r2 & st2 & E2 & L2).
    rewrite E2. cbn [snd].
    destruct (Looked_calls _ _ _ _ L2) as [Hc | [reply Hc]];
      rewrite Hc; simpl; rewrite Hsame.
    + lia.
    + rewrite remoteLookups_app. simpl. lia.
  - intros d Hcalls Hd.
    pose proof (Looked_fetched_at s st0 r st1 _ L Hcalls) as F.
    assert (Hentry : tenantCache st1 !! cacheKeyOf s
                     = Some {| data := r; timestamp := readingAfterReply s st0 |}).
    { unfold readingAfterReply.
      inversion F as [ reply w _ Hfail | d' w now w' Erpc Hd' Enow
                     | row rows w _ Hst | row rows w now w' Erpc Hst Enow ]; subst.
      - simpl in Hfail. contradiction.
      - simpl in Erpc. rewrite Erpc. cbn [snd]. rewrite Enow.
        simpl. now rewrite lookup_insert_eq.
      - simpl in Hd. contradiction.
      - simpl in Erpc. rewrite Erpc. cbn [snd]. rewrite Enow.
        simpl. now rewrite lookup_insert_eq. }
    exists r. split; [reflexivity|]. split; [exact Hentry|].
    intros w now w' Hnow Hfresh.
    split; [|split; [reflexivity|]].
    + unfold getTenantInfo, bind, cacheGet. simpl. rewrite Hentry.
      unfold dateNow. simpl. rewrite Hnow.
      apply Z.ltb_lt in Hfresh. simpl. now rewrite Hfresh.
    + simpl. rewrite Hcalls, remoteLookups_app. reflexivity.
Qed.

End WithBackend.

Lemma getTenantInfo_failed_lookup_witness :
  getTenantInfo "acme" (initial (worldDown 0))
    = (Normal None,
       withCall (initial (worldDown 0))
         (EvLookup "acme" (LookupResolved None (Some "connection refused")))) /\
  tenantCache
    (withCall (initial (worldDown 0))
       (EvLookup "acme" (LookupResolved None (Some "connection refused"))))
    = tenantCache (initial (worldDown 0)).
Proof.
  split; [reflexivity|].
  refine (proj2 (getTenantInfo_failed_lookup "acme" (initial (worldDown 0))
                   (Normal None) _ (LookupResolved None (Some "connection refused"))
                   _ _ _)).
  - reflexivity.
  - reflexivity.
  - simpl. exact I.
Defined.

Lemma getTenantInfo_caches_reply_witness :
  getTenantInfo "acme" (initial (worldAcme 7))
    = (Normal (Some (tenantInfoOf "acme" acmeRow)),
       withCache
         (withCall (initial (worldAcme 7))
            (EvLookup "acme" (LookupResolved (Some [acmeRow]) None)))
         (cacheKeyOf "acme")
         {| data := Some (tenantInfoOf "acme" acmeRow); timestamp := 7 |}) /\
  exists t,
    tenantCache
      (withCache
         (withCall (initial (worldAcme 7))
            (EvLookup "acme" (LookupResolved (Some [acmeRow]) None)))
         (cacheKeyOf "acme")
         {| data := Some (tenantInfoOf "acme" acmeRow); timestamp := 7 |})
    = <[cacheKeyOf "acme" :=
          {| data := Some (tenantInfoOf "acme" acmeRow); timestamp := t |}]>
        (tenantCache (initial (worldAcme 7))).
Proof.
  split; [reflexivity|].
  refine (proj2 (proj2 (getTenantInfo_caches_reply "acme" (initial (worldAcme 7))
                          (Normal (Some (tenantInfoOf "acme" acmeRow))) _
                          (Some [acmeRow]) _ _)
                   acmeRow [] eq_refl eq_refl)).
  - reflexivity.
  - reflexivity.
Defined.

(** C2 as stated fails on a row that is not active: the lookup for "go"
    succeeds with a suspended row, [getTenantInfo] returns nothing, and
    afterwards the cache holds no entry for "go", neither the record nor
    a "not found". *)
Lemma getTenantInfo_inactive_counterexample :
  exists st',
    getTenantInfo "go" (initial (worldSuspended 0)) = (Normal None, st') /\
    calls st' = [EvLookup "go" (LookupResolved (Some [suspendedRow]) None)] /\
    tenant_status suspendedRow <> "active" /\
    tenantCache st' !! cacheKeyOf "go" = None.
Proof.
  eexists. split; [reflexivity|]. split; [reflexivity|].
  split; [discriminate | reflexivity].
Qed.

Lemma getTenantInfo_stale_refetch_witness :
  exists r st' reply,
    getTenantInfo "acme"
      (withCache (initial (worldAcme 300000)) (cacheKeyOf "acme")
         {| data := None; timestamp := 0 |}) = (Normal r, st') /\
    fst (rpc_get_tenant_by_subdomain "acme" (worldAcme 300000)) = reply /\
    calls st' = [] ++ [EvLookup "acme" reply] /\
    remoteLookups (calls st') = 1%nat /\
    fst (getTenantInfo "acme"
           {| world := worldAcme 300000;
              tenantCache := delete (cacheKeyOf "acme")
                               (<[cacheKeyOf "acme" := {| data := None; timestamp := 0 |}]> ∅);
              calls := [] |}) = Normal r.
Proof.
  refine (getTenantInfo_stale_refetch "acme"
            (withCache (initial (worldAcme 300000)) (cacheKeyOf "acme")
               {| data := None; timestamp := 0 |})
            {| data := None; timestamp := 0 |} 300000 (worldAcme 300000) _ _ _).
  - reflexivity.
  - reflexivity.
  - vm_compute. discriminate.
Defined.

(** The first call, at clock 7, finds the active row of "acme" and
    caches it; the second, at clock 300006 with the store down, is
    served from the cache. *)
Lemma getTenantInfo_twice_witness :
  getTenantInfo "acme" (initial (worldAcme 7))
  = (Normal (Some (tenantInfoOf "acme" acmeRow)),
     (withCache
              (withCall (initial (worldAcme 7))
                 (EvLookup "acme" (LookupResolved (Some [acmeRow]) None)))
              (cacheKeyOf "acme")
              {| data := Some (tenantInfoOf "acme" acmeRow); timestamp := 7 |})) /\
  readingAfterReply "acme" (initial (worldAcme 7)) = 7 /\
  exists r1,
    Normal (Some (tenantInfoOf "acme" acmeRow)) = Normal r1 /\
    tenantCache
      (withCache
               (withCall (initial (worldAcme 7))
                  (EvLookup "acme" (LookupResolved (Some [acmeRow]) None)))
               (cacheKeyOf "acme")
               {| data := Some (tenantInfoOf "acme" acmeRow); timestamp := 7 |})
      !! cacheKeyOf "acme"
    = Some {| data := r1; timestamp := 7 |} /\
    getTenantInfo "acme"
      (withWorld
         (withCache
                  (withCall (initial (worldAcme 7))
                     (EvLookup "acme" (LookupResolved (Some [acmeRow]) None)))
                  (cacheKeyOf "acme")
                  {| data := Some (tenantInfoOf "acme" acmeRow); timestamp := 7 |})
         (worldDown 300006))
    = (Normal r1,
       withWorld
         (withCache
                  (withCall (initial (worldAcme 7))
                     (EvLookup "acme" (LookupResolved (Some [acmeRow]) None)))
                  (cacheKeyOf "acme")
                  {| data := Some (tenantInfoOf "acme" acmeRow); timestamp := 7 |})
         (worldDown 300006)) /\
    remoteLookups
      (calls
         (withWorld
            (withCache
                     (withCall (initial (worldAcme 7))
                        (EvLookup "acme" (LookupResolved (Some [acmeRow]) None)))
                     (cacheKeyOf "acme")
                     {| data := Some (tenantInfoOf "acme" acmeRow); timestamp := 7 |})
            (worldDown 300006)))
    = 1%nat.
Proof.
  split; [reflexivity|]. split; [reflexivity|].
  destruct (fun E =>
              proj2 (getTenantInfo_twice "acme" (initial (worldAcme 7))
                       (Normal (Some (tenantInfoOf "acme" acmeRow)))
                       (withCache
                       (withCall (initial (worldAcme 7))
                          (EvLookup "acme" (LookupResolved (Some [acmeRow]) None)))
                       (cacheKeyOf "acme")
                       {| data := Some (tenantInfoOf "acme" acmeRow); timestamp := 7 |})
                       E)
                (Some [acmeRow]))
    as (r1 & Hr & Hentry & Hsecond).
  - reflexivity.
  - reflexivity.
  - reflexivity.
  - exists r1. split; [exact Hr|]. split; [exact Hentry|].
    destruct (Hsecond (worldDown 300006) 300006 (worldDown 300006))
      as (Hrun & _ & Hcount).
    + reflexivity.
    + reflexivity.
    + split; [exact Hrun | exact Hcount].
Defined.

(** C4 as stated fails when the first call's remote lookup fails and
    when it finds a row that is not active.  With the store down and the
    clock standing still, two consecutive calls for "acme" issue two
    remote calls; with a suspended row for "go" and the clock standing
    still, two consecutive calls for "go" issue two remote calls as
    well. *)
Lemma getTenantInfo_twice_counterexample :
  (exists st1 st2,
     getTenantInfo "acme" (initial (worldDown 0)) = (Normal None, st1) /\
     getTenantInfo "acme" st1 = (Normal None, st2) /\
     date_now (world (initial (worldDown 0))) = (0, world st1) /\
     date_now (world st1) = (0, world st2) /\
     remoteLookups (calls (initial (worldDown 0))) = 0%nat /\
     remoteLookups (calls st2) = 2%nat /\
     ~ (remoteLookups (calls st2)
        <= remoteLookups (calls (initial (worldDown 0))) + 1)%nat) /\
  (exists st1 st2,
     getTenantInfo "go" (initial (worldSuspended 0)) = (Normal None, st1) /\
     calls st1 = [EvLookup "go" (LookupResolved (Some [suspendedRow]) None)] /\
     getTenantInfo "go" st1 = (Normal None, st2) /\
     date_now (world (initial (worldSuspended 0))) = (0, world st1) /\
     date_now (world st1) = (0, world st2) /\
     remoteLookups (calls (initial (worldSuspended 0))) = 0%nat /\
     remoteLookups (calls st2) = 2%nat /\
     ~ (remoteLookups (calls st2)
        <= remoteLookups (calls (initial (worldSuspended 0))) + 1)%nat).
Proof.
  split.
  - eexists _, _. split; [reflexivity|]. split; [reflexivity|].
    split; [reflexivity|]. split; [reflexivity|].
    split; [reflexivity|]. split; [reflexivity|]. simpl. lia.
  - eexists _, _. split; [reflexivity|]. split; [reflexivity|].
    split; [reflexivity|]. split; [reflexivity|]. split; [reflexivity|].
    split; [reflexivity|]. split; [reflexivity|]. simpl. lia.
Qed.

(** *** The orchestrator *)

Section Orchestrator.
Context {W : Type} `{Backend W}.

Lemma resolveTenant_thrown (req : Request) (st : St W) e :
  extractSubdomain req = Throw e ->
  resolveTenant req st = (Normal resolutionError, st).
Proof. intros E. unfold resolveTenant, tryCatch, bind, lift. now rewrite E. Qed.

Lemma resolveTenant_no_candidate (req : Request) (st : St W) v :
  extractSubdomain req = Normal v -> truthy v = false ->
  resolveTenant req st = (Normal invalidSubdomain, st).
Proof.
  intros E Hv. unfold resolveTenant, tryCatch, bind, lift. now rewrite E, Hv.
Qed.

Lemma resolveTenant_bad_format (req : Request) (st : St W) v :
  extractSubdomain req = Normal v -> truthy v = true -> isValidSubdomain v = false ->
  resolveTenant req st = (Normal invalidSubdomainFormat, st).
Proof.
  intros E Hv Hf. unfold resolveTenant, tryCatch, bind, lift.
  now rewrite E, Hv, Hf.
Qed.

Lemma isValidSubdomain_truthy (v : JsVal) :
  isValidSubdomain v = true -> truthy v = true.
Proof.
  unfold isValidSubdomain. destruct (truthy v); [reflexivity | discriminate].
Qed.

(** The run of [setTenantContext]. *)
Lemma setTenantContext_run (tenantId : string) (st : St W) :
  setTenantContext tenantId st =
    let (reply, w) := rpc_set_tenant_context tenantId (world st) in
    (match reply with
     | ContextResolved None => Normal tt
     | ContextResolved (Some _) => Throw "Failed to set tenant context"
     | ContextRejected => Throw "set_tenant_context rejected"
     end,
     withCall (withWorld st w) (EvSetContext tenantId reply)).
Proof.
  unfold setTenantContext, tryCatch, bind, rpcSetContext.
  destruct (rpc_set_tenant_context tenantId (world st)) as [reply w].
  now destruct reply as [|[e|]].
Qed.

(** Past the extractor and the validator, the resolution is the lookup
    followed by the context call. *)
Lemma resolveTenant_lookup (req : Request) (st : St W) (s : string) :
  extractSubdomain req = Normal (JStr s) ->
  isValidSubdomain (JStr s) = true ->
  resolveTenant req st =
    match getTenantInfo s st with
    | (Normal None, st1) => (Normal (tenantNotFound s), st1)
    | (Normal (Some t), st1) =>
        let (reply, w) := rpc_set_tenant_context (id t) (world st1) in
        (Normal match reply with
                | ContextResolved None => {| error := None; tenant := Some t |}
                | _ => resolutionError
                end,
         withCall (withWorld st1 w) (EvSetContext (id t) reply))
    | (Throw _, st1) => (Normal resolutionError, st1)
    end.
Proof.
  intros E Hv. pose proof (isValidSubdomain_truthy _ Hv) as Ht.
  unfold resolveTenant, tryCatch, bind, lift. rewrite E, Ht, Hv. simpl.
  destruct (getTenantInfo s st) as [[[t|]|e] st1]; try reflexivity.
  rewrite setTenantContext_run.
  destruct (rpc_set_tenant_context (id t) (world st1)) as [reply w].
  now destruct reply as [|[e|]].
Qed.


(** C8: when a request reaches the context-setting step (a candidate is
    extracted, it is valid, and the lookup returns a tenant record) and
    the set-tenant-context call fails, [resolveTenant] returns no tenant
    and an error whose code is TENANT_RESOLUTION_ERROR. *)
Theorem resolveTenant_context_failure
    (req : Request) (st : St W) (s : string) (t : TenantInfo) (st1 : St W)
    (reply : ContextReply) (w : W) :
  extractSubdomain req = Normal (JStr s) ->
  isValidSubdomain (JStr s) = true ->
  getTenantInfo s st = (Normal (Some t), st1) ->
  rpc_set_tenant_context (id t) (world st1) = (reply, w) ->
  contextFailed reply ->
  exists e,
    resolveTenant req st
      = (Normal {| error := Some e; tenant := None |},
         withCall (withWorld st1 w) (EvSetContext (id t) reply)) /\
    code e = "TENANT_RESOLUTION_ERROR".
Proof.
  intros E Hv Hlook Hctx Hfail.
  rewrite (resolveTenant_lookup req st s E Hv), Hlook, Hctx.
  destruct reply as [|[e|]]; simpl in Hfail; try contradiction;
    eexists; split; reflexivity.
Qed.

(** *** Only active records leave the module *)









(** C10: for every production host name (neither "localhost" nor
    "127.0.0.1" in it) with at least 3 dot-separated segments whose first
    segment is empty, the extractor returns the empty string and
    [resolveTenant] answers as it does when no candidate is found: no
    tenant and the error INVALID_SUBDOMAIN, not INVALID_SUBDOMAIN_FORMAT. *)
Theorem resolveTenant_empty_segment
    (req : Request) (h : Headers) (hostStr : string) (st : St W) :
  headers req = Some h ->
  jsOr (host h) (x_forwarded_host h) = JStr hostStr ->
  isDevelopmentHost (hostnameOf hostStr) = false ->
  (3 <= length (split "." (hostnameOf hostStr)))%nat ->
  hd "" (split "." (hostnameOf hostStr)) = "" ->
  extractSubdomain req = Normal (JStr "") /\
  (exists e,
      resolveTenant req st = (Normal {| error := Some e; tenant := None |}, st) /\
      code e = "INVALID_SUBDOMAIN" /\ code e <> "INVALID_SUBDOMAIN_FORMAT") /\
  (forall req', extractSubdomain req' = Normal JNull ->
                resolveTenant req' st = resolveTenant req st).
Proof.
  intros Hh Hhost Hdev Hseg Hfirst.
  assert (E : extractSubdomain req = Normal (JStr "")).
  { rewrite (extractSubdomain_string_host req h hostStr Hh Hhost Hdev Hseg).
    now rewrite Hfirst. }
  assert (R : resolveTenant req st = (Normal invalidSubdomain, st))
    by now apply (resolveTenant_no_candidate req st (JStr "")).
  split; [exact E | split].
  - eexists. split; [exact R | split; [reflexivity | discriminate]].
  - intros req' E'. rewrite R.
    now apply (resolveTenant_no_candidate req' st JNull).
Qed.

End Orchestrator.

Lemma resolveTenant_context_failure_witness :
  exists e,
    resolveTenant (requestFor "acme.example.com") (initial (worldNoContext 0))
      = (Normal {| error := Some e; tenant := None |},
         withCall
           (withCache
              (withCall (initial (worldNoContext 0))
                 (EvLookup "acme" (LookupResolved (Some [acmeRow]) None)))
              (cacheKeyOf "acme")
              {| data := Some (tenantInfoOf "acme" acmeRow); timestamp := 0 |})
           (EvSetContext "t1" (ContextResolved (Some "permission denied")))) /\
    code e = "TENANT_RESOLUTION_ERROR".
Proof.
  refine (resolveTenant_context_failure
            (requestFor "acme.example.com") (initial (worldNoContext 0))
            "acme" (tenantInfoOf "acme" acmeRow)
            (withCache
               (withCall (initial (worldNoContext 0))
                  (EvLookup "acme" (LookupResolved (Some [acmeRow]) None)))
               (cacheKeyOf "acme")
               {| data := Some (tenantInfoOf "acme" acmeRow); timestamp := 0 |})
            (ContextResolved (Some "permission denied")) (worldNoContext 0)
            _ _ _ _ _).
  - reflexivity.
  - reflexivity.
  - reflexivity.
  - reflexivity.
  - simpl. exact I.
Defined.


Lemma resolveTenant_empty_segment_witness :
  extractSubdomain (requestFor ".example.com") = Normal (JStr "") /\
  (exists e,
      resolveTenant (requestFor ".example.com") (initial (worldAcme 0))
        = (Normal {| error := Some e; tenant := None |}, initial (worldAcme 0)) /\
      code e = "INVALID_SUBDOMAIN" /\ code e <> "INVALID_SUBDOMAIN_FORMAT") /\
  (forall req', extractSubdomain req' = Normal JNull ->
                resolveTenant req' (initial (worldAcme 0))
                = resolveTenant (requestFor ".example.com") (initial (worldAcme 0))).
Proof.
  refine (resolveTenant_empty_segment (requestFor ".example.com")
            {| host := JStr ".example.com"; x_forwarded_host := JUndefined |}
            ".example.com" (initial (worldAcme 0)) eq_refl eq_refl eq_refl _ eq_refl).
  simpl. lia.
Defined.

(** *** The end-to-end scenarios *)

(** acme.example.com with an active tenant: the record and no error, one
    lookup and one context call. *)
Example scenario_active_tenant :
  let run := resolveTenant (requestFor "acme.example.com") (initial (worldAcme 0)) in
  fst run = Normal {| error := None; tenant := Some (tenantInfoOf "acme" acmeRow) |} /\
  calls (snd run)
    = [EvLookup "acme" (LookupResolved (Some [acmeRow]) None);
       EvSetContext "t1" (ContextResolved None)].
Proof. split; reflexivity. Qed.

(** www.example.com: no candidate, no remote call. *)
Example scenario_excluded_host :
  resolveTenant (requestFor "www.example.com") (initial (worldAcme 0))
  = (Normal invalidSubdomain, initial (worldAcme 0)).
Proof. reflexivity. Qed.

(** ab.example.com without a row: not found, and a second identical
    resolution does not query the store again. *)
Example scenario_absent_tenant :
  let run1 := resolveTenant (requestFor "ab.example.com") (initial (worldEmpty 0)) in
  let run2 := resolveTenant (requestFor "ab.example.com") (snd run1) in
  fst run1 = Normal (tenantNotFound "ab") /\
  fst run2 = Normal (tenantNotFound "ab") /\
  remoteLookups (calls (snd run1)) = 1%nat /\
  remoteLookups (calls (snd run2)) = 1%nat.
Proof. repeat split; reflexivity. Qed.

(** go.example.com with a suspended row: not found. *)
Example scenario_suspended_tenant :
  fst (resolveTenant (requestFor "go.example.com") (initial (worldSuspended 0)))
  = Normal (tenantNotFound "go").
Proof. reflexivity. Qed.

End ResolutionFacts.

(* ===================================================================== *)
(** ** More on the extractor and the validator *)
(* ===================================================================== *)

Module ExtractorFacts.
Import JsString Regex StringFacts RegexFacts Tenant ParsingFacts.

Lemma split_without_separator (sep : ascii) (s : string) :
  hasChar sep s = false -> split sep s = [s].
Proof.
  induction s as [|c s IH]; simpl; [reflexivity|].
  intros E. apply orb_false_iff in E as [Ec Es].
  rewrite Ec, (IH Es). reflexivity.
Qed.

Lemma split_head_before_separator (sep : ascii) (s rest : string) :
  hasChar sep s = false -> hd "" (split sep (s +:+ String sep rest)) = s.
Proof.
  induction s as [|c s IH]; intros E.
  - rewrite append_nil. simpl. now rewrite Ascii.eqb_refl.
  - simpl in E. apply orb_false_iff in E as [Ec Es].
    rewrite append_cons. simpl. rewrite Ec.
    specialize (IH Es).
    pose proof (split_nonempty sep (s +:+ String sep rest)) as Hn.
    destruct (split sep (s +:+ String sep rest)) as [|p ps]; [contradiction|].
    simpl in *. now rewrite IH.
Qed.

Lemma indexOf_before_separator (c : ascii) (s rest : string) :
  hasChar c s = false ->
  indexOf c (s +:+ String c rest) = Z.of_nat (String.length s).
Proof.
  induction s as [|d s IH]; intros E.
  - rewrite append_nil. simpl. now rewrite Ascii.eqb_refl.
  - simpl in E. apply orb_false_iff in E as [Ed Es].
    rewrite append_cons. cbn [indexOf]. rewrite Ed, (IH Es).
    destruct (Z.ltb_spec (Z.of_nat (String.length s)) 0) as [Hneg|_]; [lia|].
    cbn [String.length]. lia.
Qed.

Lemma indexOf_absent (c : ascii) (s : string) :
  hasChar c s = false -> indexOf c s = -1.
Proof.
  induction s as [|d s IH]; simpl; [reflexivity|].
  intros E. apply orb_false_iff in E as [Ed Es].
  rewrite Ed, (IH Es). reflexivity.
Qed.

Lemma substring_prefix (s rest : string) :
  String.substring 0 (String.length s) (s +:+ rest) = s.
Proof.
  induction s as [|c s IH].
  - rewrite append_nil. simpl. now destruct rest.
  - rewrite append_cons. simpl. now rewrite IH.
Qed.

Lemma includes_empty (needle : string) :
  needle <> "" -> includes "" needle = false.
Proof. destruct needle; [contradiction | reflexivity]. Qed.

Lemma development_host_nonempty (hostname : string) :
  isDevelopmentHost hostname = true -> hostname <> "".
Proof. intros E ->. discriminate. Qed.

Lemma hostnameOf_empty (hostStr : string) :
  hostnameOf hostStr <> "" -> hostStr <> "".
Proof. intros E ->. now apply E. Qed.

(** The extractor on a request whose host is a non-empty string, with
    the host name made explicit. *)
Lemma extractSubdomain_of_hostname (req : Request) (h : Headers) (hostStr : string) :
  headers req = Some h ->
  jsOr (host h) (x_forwarded_host h) = JStr hostStr ->
  hostStr <> "" ->
  extractSubdomain req =
    if isDevelopmentHost (hostnameOf hostStr) then
      if indexOf "-" (hostnameOf hostStr) >? 0
      then Normal (JStr (substring0 (indexOf "-" (hostnameOf hostStr)) (hostnameOf hostStr)))
      else Normal (jsOr (match query req with
                         | Some q => query_tenant q
                         | None => JUndefined
                         end) (JStr "demo"))
    else if (3 <=? length (split "." (hostnameOf hostStr)))%nat then
      if listIncludes excludedSubdomains
           (toLowerCase (hd "" (split "." (hostnameOf hostStr))))
      then Normal JNull
      else Normal (JStr (hd "" (split "." (hostnameOf hostStr))))
    else Normal JNull.
Proof.
  intros Hh Hhost Hne. unfold extractSubdomain. rewrite Hh, Hhost.
  apply String.eqb_neq in Hne.
  change (truthy (JStr hostStr)) with (negb (String.eqb hostStr "")).
  rewrite Hne. reflexivity.
Qed.

Lemma indexOf_found (c : ascii) (s : string) :
  0 <= indexOf c s ->
  exists p rest, s = p +:+ String c rest /\ hasChar c p = false.
Proof.
  induction s as [|d s IH]; cbn [indexOf]; [lia|].
  destruct (Ascii.eqb_spec d c) as [->|Hne].
  - intros _. exists "", s. now split.
  - destruct (Z.ltb_spec (indexOf c s) 0) as [Hneg|Hpos]; [lia|].
    intros _. destruct (IH Hpos) as (p & rest & -> & Hp).
    exists (String d p), rest. split; [reflexivity|].
    simpl. apply Ascii.eqb_neq in Hne. now rewrite Hne.
Qed.

(** X1: the validator accepts a value exactly when it is a string of 2
    to 50 characters that starts and ends with a letter or digit, has
    only letters, digits and hyphens in between, and is not a reserved
    word up to the case of its letters. *)
Theorem isValidSubdomain_accepts (v : JsVal) :
  isValidSubdomain v = true <->
  exists s,
    v = JStr s /\
    (2 <= String.length s <= 50)%nat /\
    wellFormedLabel s /\
    ~ (exists w, In w reservedSubdomains /\ equalsIgnoreCase s w = true).
Proof.
  split.
  - intros E. destruct (isValidSubdomain_is_string v E) as [s ->].
    exists s. split; [reflexivity|]. now apply isValidSubdomain_spec.
  - intros (s & -> & Hs). now apply isValidSubdomain_spec.
Qed.

(** X2: a port in the host header does not change the candidate: a
    request with host "name:port" and a request with host "name" (and
    the same query) get the same answer from the extractor. *)
Theorem extractSubdomain_ignores_port
    (req1 req2 : Request) (h1 h2 : Headers) (hostname port : string) :
  headers req1 = Some h1 ->
  headers req2 = Some h2 ->
  query req1 = query req2 ->
  jsOr (host h1) (x_forwarded_host h1) = JStr (hostname +:+ String ":" port) ->
  jsOr (host h2) (x_forwarded_host h2) = JStr hostname ->
  hasChar ":" hostname = false ->
  extractSubdomain req1 = extractSubdomain req2.
Proof.
  intros Hh1 Hh2 Hq Hhost1 Hhost2 Hcolon.
  assert (Hne1 : hostname +:+ String ":" port <> "")
    by (destruct hostname; discriminate).
  rewrite (extractSubdomain_of_hostname req1 h1 _ Hh1 Hhost1 Hne1).
  unfold hostnameOf. rewrite (split_head_before_separator ":" hostname port Hcolon).
  destruct hostname as [|c hostname].
  - unfold extractSubdomain. rewrite Hh2, Hhost2. reflexivity.
  - rewrite (extractSubdomain_of_hostname req2 h2 _ Hh2 Hhost2) by discriminate.
    unfold hostnameOf. rewrite (split_without_separator ":" _ Hcolon), Hq.
    reflexivity.
Qed.

Lemma extractSubdomain_ignores_port_witness :
  extractSubdomain (requestFor "acme.example.com:8080")
  = extractSubdomain (requestFor "acme.example.com").
Proof.
  refine (extractSubdomain_ignores_port
            (requestFor "acme.example.com:8080") (requestFor "acme.example.com")
            {| host := JStr "acme.example.com:8080"; x_forwarded_host := JUndefined |}
            {| host := JStr "acme.example.com"; x_forwarded_host := JUndefined |}
            "acme.example.com" "8080" eq_refl eq_refl eq_refl _ _ _);
    reflexivity.
Defined.

(** X3: on a development host (one that contains "localhost" or
    "127.0.0.1") whose name has its first hyphen after a non-empty
    prefix, the candidate is that prefix, whatever the query says. *)
Theorem extractSubdomain_development_dash
    (req : Request) (h : Headers) (hostStr name rest : string) :
  headers req = Some h ->
  jsOr (host h) (x_forwarded_host h) = JStr hostStr ->
  isDevelopmentHost (hostnameOf hostStr) = true ->
  hostnameOf hostStr = name +:+ String "-" rest ->
  hasChar "-" name = false ->
  name <> "" ->
  extractSubdomain req = Normal (JStr name).
Proof.
  intros Hh Hhost Hdev Hname Hdash Hne.
  pose proof (hostnameOf_empty hostStr (development_host_nonempty _ Hdev)) as Hhs.
  rewrite (extractSubdomain_of_hostname req h hostStr Hh Hhost Hhs), Hdev, Hname.
  rewrite (indexOf_before_separator "-" name rest Hdash).
  assert (Hlen : (0 < String.length name)%nat)
    by (destruct name; [contradiction | simpl; lia]).
  assert (Hpos : (Z.of_nat (String.length name) >? 0) = true)
    by (rewrite Z.gtb_ltb; apply Z.ltb_lt; lia).
  rewrite Hpos. unfold substring0. rewrite Nat2Z.id.
  now rewrite substring_prefix.
Qed.

Lemma extractSubdomain_development_dash_witness :
  extractSubdomain (requestFor "acme-localhost:3000") = Normal (JStr "acme").
Proof.
  refine (extractSubdomain_development_dash
            (requestFor "acme-localhost:3000")
            {| host := JStr "acme-localhost:3000"; x_forwarded_host := JUndefined |}
            "acme-localhost:3000" "acme" "localhost" eq_refl eq_refl _ _ _ _).
  - reflexivity.
  - reflexivity.
  - reflexivity.
  - discriminate.
Defined.

(** X4: on a development host whose name has no hyphen, or starts with
    one, the candidate is the [tenant] query parameter when that is
    truthy and "demo" otherwise. *)
Theorem extractSubdomain_development_fallback
    (req : Request) (h : Headers) (hostStr : string) :
  headers req = Some h ->
  jsOr (host h) (x_forwarded_host h) = JStr hostStr ->
  isDevelopmentHost (hostnameOf hostStr) = true ->
  hasChar "-" (hostnameOf hostStr) = false \/
  (exists rest, hostnameOf hostStr = String "-" rest) ->
  extractSubdomain req =
    Normal (match query req with
            | Some q => if truthy (query_tenant q) then query_tenant q else JStr "demo"
            | None => JStr "demo"
            end).
Proof.
  intros Hh Hhost Hdev Hdash.
  pose proof (hostnameOf_empty hostStr (development_host_nonempty _ Hdev)) as Hhs.
  rewrite (extractSubdomain_of_hostname req h hostStr Hh Hhost Hhs), Hdev.
  assert (Hidx : (indexOf "-" (hostnameOf hostStr) >? 0) = false).
  { destruct Hdash as [Hnone | [rest ->]].
    - now rewrite (indexOf_absent "-" _ Hnone).
    - reflexivity. }
  rewrite Hidx. now destruct (query req).
Qed.

Lemma extractSubdomain_development_fallback_witness :
  extractSubdomain
    {| headers := Some {| host := JStr "localhost:3000"; x_forwarded_host := JUndefined |};
       query := Some {| query_tenant := JStr "acme" |} |}
  = Normal (JStr "acme") /\
  extractSubdomain (requestFor "127.0.0.1") = Normal (JStr "demo").
Proof.
  split.
  - refine (extractSubdomain_development_fallback
              {| headers := Some {| host := JStr "localhost:3000";
                                    x_forwarded_host := JUndefined |};
                 query := Some {| query_tenant := JStr "acme" |} |}
              {| host := JStr "localhost:3000"; x_forwarded_host := JUndefined |}
              "localhost:3000" eq_refl eq_refl _ _).
    + reflexivity.
    + left. reflexivity.
  - refine (extractSubdomain_development_fallback
              (requestFor "127.0.0.1")
              {| host := JStr "127.0.0.1"; x_forwarded_host := JUndefined |}
              "127.0.0.1" eq_refl eq_refl _ _).
    + reflexivity.
    + left. reflexivity.
Defined.

(** X5: on a development host the extractor always finds a candidate:
    it returns a truthy value, never null and never an exception. *)
Theorem extractSubdomain_development_candidate
    (req : Request) (h : Headers) (hostStr : string) :
  headers req = Some h ->
  jsOr (host h) (x_forwarded_host h) = JStr hostStr ->
  isDevelopmentHost (hostnameOf hostStr) = true ->
  exists v, extractSubdomain req = Normal v /\ truthy v = true.
Proof.
  intros Hh Hhost Hdev.
  pose proof (hostnameOf_empty hostStr (development_host_nonempty _ Hdev)) as Hhs.
  rewrite (extractSubdomain_of_hostname req h hostStr Hh Hhost Hhs), Hdev.
  destruct (Z.gtb_spec (indexOf "-" (hostnameOf hostStr)) 0) as [Hpos|Hle].
  - eexists. split; [reflexivity|].
    destruct (indexOf_found "-" (hostnameOf hostStr)) as (p & rest & E & Hp); [lia|].
    rewrite E in *. rewrite (indexOf_before_separator "-" p rest Hp) in *.
    unfold substring0. rewrite Nat2Z.id, substring_prefix.
    destruct p; [simpl in Hpos; lia | reflexivity].
  - eexists. split; [reflexivity|]. unfold jsOr.
    destruct (query req) as [q|]; simpl; [|reflexivity].
    now destruct (truthy (query_tenant q)) eqn:Eq.
Qed.

Lemma extractSubdomain_development_candidate_witness :
  exists v, extractSubdomain (requestFor "-localhost") = Normal v /\ truthy v = true.
Proof.
  refine (extractSubdomain_development_candidate
            (requestFor "-localhost")
            {| host := JStr "-localhost"; x_forwarded_host := JUndefined |}
            "-localhost" eq_refl eq_refl _).
  reflexivity.
Defined.

(** X6: on a production host (neither "localhost" nor "127.0.0.1" in
    its name) the extractor never throws, and it finds a candidate
    exactly when the name has at least 3 dot-separated segments, the
    first segment is not empty and is not one of www, api, admin, app up
    to case; the candidate is then the first segment. *)
Theorem extractSubdomain_production_candidate
    (req : Request) (h : Headers) (hostStr : string) :
  headers req = Some h ->
  jsOr (host h) (x_forwarded_host h) = JStr hostStr ->
  isDevelopmentHost (hostnameOf hostStr) = false ->
  exists v,
    extractSubdomain req = Normal v /\
    (truthy v = true <->
     (3 <= length (split "." (hostnameOf hostStr)))%nat /\
     hd "" (split "." (hostnameOf hostStr)) <> "" /\
     ~ (exists w, In w excludedSubdomains /\
                  equalsIgnoreCase (hd "" (split "." (hostnameOf hostStr))) w = true)) /\
    (truthy v = true -> v = JStr (hd "" (split "." (hostnameOf hostStr)))).
Proof.
  intros Hh Hhost Hdev.
  destruct (String.eqb_spec hostStr "") as [->|Hne].
  - exists JNull. unfold extractSubdomain. rewrite Hh, Hhost. simpl.
    split; [reflexivity|]. split; [|discriminate].
    split; [discriminate | intros [Hseg _]; lia].
  - rewrite (extractSubdomain_of_hostname req h hostStr Hh Hhost Hne), Hdev.
    pose proof (excluded_ignore_case (hd "" (split "." (hostnameOf hostStr)))) as Hex.
    destruct (Nat.leb_spec 3 (length (split "." (hostnameOf hostStr)))) as [Hseg|Hseg].
    + destruct (listIncludes excludedSubdomains
                  (toLowerCase (hd "" (split "." (hostnameOf hostStr))))) eqn:Ex.
      * exists JNull. split; [reflexivity|]. split; [|discriminate].
        split; [discriminate|]. intros (_ & _ & Hn). exfalso. apply Hn.
        now apply Hex.
      * eexists. split; [reflexivity|]. split; [|reflexivity].
        simpl. rewrite negb_true_iff, String.eqb_neq.
        split.
        -- intros Hf. split; [exact Hseg | split; [exact Hf|]].
           intros Hw. apply Hex in Hw. discriminate.
        -- now intros (_ & Hf & _).
    + exists JNull. split; [reflexivity|]. split; [|discriminate].
      split; [discriminate | intros [Hs _]; lia].
Qed.

Lemma extractSubdomain_production_candidate_witness :
  exists v,
    extractSubdomain (requestFor "example.com") = Normal v /\
    (truthy v = true <->
     (3 <= length (split "." (hostnameOf "example.com")))%nat /\
     hd "" (split "." (hostnameOf "example.com")) <> "" /\
     ~ (exists w, In w excludedSubdomains /\
                  equalsIgnoreCase (hd "" (split "." (hostnameOf "example.com"))) w = true)) /\
    (truthy v = true -> v = JStr (hd "" (split "." (hostnameOf "example.com")))).
Proof.
  refine (extractSubdomain_production_candidate
            (requestFor "example.com")
            {| host := JStr "example.com"; x_forwarded_host := JUndefined |}
            "example.com" eq_refl eq_refl _).
  reflexivity.
Defined.

(** X7: the extractor throws exactly on a request without a [headers]
    object or whose host (the host header, or the forwarded host when
    the host header is falsy) is truthy and not a string. *)
Theorem extractSubdomain_throws (req : Request) :
  (exists e, extractSubdomain req = Throw e) <->
  headers req = None \/
  (exists h, headers req = Some h /\
             truthy (jsOr (host h) (x_forwarded_host h)) = true /\
             isString (jsOr (host h) (x_forwarded_host h)) = false).
Proof.
  unfold extractSubdomain. destruct (headers req) as [h|].
  - set (v := jsOr (host h) (x_forwarded_host h)).
    assert (Hrhs : (Some h = None \/
                    (exists h', Some h = Some h' /\
                       truthy (jsOr (host h') (x_forwarded_host h')) = true /\
                       isString (jsOr (host h') (x_forwarded_host h')) = false)) <->
                   truthy v = true /\ isString v = false).
    { split.
      - intros [Hn | (h' & [= <-] & Ht & Hs)]; [discriminate | now split].
      - intros [Ht Hs]. right. now exists h. }
    rewrite Hrhs. clearbody v. clear Hrhs.
    destruct (truthy v) eqn:Ht; cbn [negb].
    + destruct v as [ | | b | n | s | ]; cbn [isString].
      * discriminate.
      * discriminate.
      * split; [now split | intros _; now eexists].
      * split; [now split | intros _; now eexists].
      * split; [|intros [_ Hs]; discriminate].
        intros [e He]. revert He.
        repeat match goal with |- context [if ?b then _ else _] => destruct b end;
          discriminate.
      * split; [now split | intros _; now eexists].
    + split; [intros [e He]; discriminate | intros [Hf _]; discriminate].
  - split; [intros _; now left | intros _; now eexists].
Qed.

End ExtractorFacts.

(* ===================================================================== *)
(** ** More on the orchestrator and the cache *)
(* ===================================================================== *)

Module OrchestratorFacts.
Import JsString StringFacts ParsingFacts Tenant ResolutionFacts Middleware.

Section WithBackend.
Context {W : Type} `{Backend W}.

(** The runs of [resolveTenant]: answered on the spot, or after a lookup,
    or after a lookup and a context call. *)
Lemma resolveTenant_run (req : Request) (st : St W) c st' :
  resolveTenant req st = (c, st') ->
  (st' = st /\
   ((exists e, extractSubdomain req = Throw e /\ c = Normal resolutionError) \/
    (exists v, extractSubdomain req = Normal v /\ truthy v = false /\
               c = Normal invalidSubdomain) \/
    (exists v, extractSubdomain req = Normal v /\ truthy v = true /\
               isValidSubdomain v = false /\ c = Normal invalidSubdomainFormat))) \/
  (exists s,
      extractSubdomain req = Normal (JStr s) /\ isValidSubdomain (JStr s) = true /\
      ((Looked s st None st' /\ c = Normal (tenantNotFound s)) \/
       (exists t st1 reply w,
           Looked s st (Some t) st1 /\
           rpc_set_tenant_context (id t) (world st1) = (reply, w) /\
           st' = withCall (withWorld st1 w) (EvSetContext (id t) reply) /\
           c = Normal match reply with
                      | ContextResolved None => {| error := None; tenant := Some t |}
                      | _ => resolutionError
                      end))).
Proof.
  intros R. destruct (extractSubdomain req) as [v|e] eqn:E.
  - destruct (truthy v) eqn:Hv.
    + destruct (isValidSubdomain v) eqn:Hf.
      * destruct (isValidSubdomain_is_string v Hf) as [s ->].
        rewrite (resolveTenant_lookup req st s E Hf) in R.
        destruct (getTenantInfo_Looked s st) as (r & st1 & E1 & L).
        rewrite E1 in R. right. exists s. split; [reflexivity | split; [exact Hf|]].
        destruct r as [t|].
        -- destruct (rpc_set_tenant_context (id t) (world st1)) as [reply w] eqn:Ectx.
           injection R as <- <-. right. now exists t, st1, reply, w.
        -- injection R as <- <-. now left.
      * rewrite (resolveTenant_bad_format req st v E Hv Hf) in R.
        injection R as <- <-. left. split; [reflexivity|]. right; right. now exists v.
    + rewrite (resolveTenant_no_candidate req st v E Hv) in R.
      injection R as <- <-. left. split; [reflexivity|]. right; left. now exists v.
  - rewrite (resolveTenant_thrown req st e E) in R.
    injection R as <- <-. left. split; [reflexivity|]. left. now exists e.
Qed.

(** X8: a request without a valid candidate is answered on the spot:
    the state is left as it was (no remote call, no cache write, no
    clock reading), there is no tenant, and the error code is
    TENANT_RESOLUTION_ERROR when the extractor throws,
    INVALID_SUBDOMAIN when the candidate is falsy and
    INVALID_SUBDOMAIN_FORMAT when it is truthy but not valid. *)
Theorem resolveTenant_local_rejection (req : Request) (st : St W) :
  (forall s, extractSubdomain req = Normal (JStr s) ->
             isValidSubdomain (JStr s) = false) ->
  exists res e,
    resolveTenant req st = (Normal res, st) /\
    tenant res = None /\ error res = Some e /\
    code e = match extractSubdomain req with
             | Throw _ => "TENANT_RESOLUTION_ERROR"
             | Normal v => if truthy v then "INVALID_SUBDOMAIN_FORMAT"
                           else "INVALID_SUBDOMAIN"
             end.
Proof.
  intros Hinvalid.
  destruct (resolveTenant req st) as [c st'] eqn:R.
  destruct (resolveTenant_run req st c st' R)
    as [[-> [(e & E & ->) | [(v & E & Hv & ->) | (v & E & Hv & Hf & ->)]]]
       | (s & E & Hf & _)].
  - eexists _, _. rewrite E. repeat split.
  - eexists _, _. rewrite E, Hv. repeat split.
  - eexists _, _. rewrite E, Hv. repeat split.
  - rewrite (Hinvalid s E) in Hf. discriminate.
Qed.

End WithBackend.

Lemma resolveTenant_local_rejection_witness :
  exists res e,
    resolveTenant (requestFor "www.example.com") (initial (worldAcme 0))
      = (Normal res, initial (worldAcme 0)) /\
    tenant res = None /\ error res = Some e /\
    code e = "INVALID_SUBDOMAIN".
Proof.
  refine (resolveTenant_local_rejection
            (requestFor "www.example.com") (initial (worldAcme 0)) _).
  intros s E. discriminate E.
Defined.

Section RemoteCalls.
Context {W : Type} `{Backend W}.

Lemma Looked_new_calls (s : string) (st : St W) r st' :
  Looked s st r st' ->
  exists evs,
    calls st' = calls st ++ evs /\
    (evs = [] \/ exists reply, evs = [EvLookup s reply]).
Proof.
  intros L. destruct (Looked_calls s st r st' L) as [E | [reply E]].
  - exists []. rewrite app_nil_r. split; [exact E | now left].
  - exists [EvLookup s reply]. split; [exact E | right; now exists reply].
Qed.

(** X9: when the remote lookup issued by a resolution fails (the call
    rejects or its reply carries an error), [resolveTenant] answers
    TENANT_NOT_FOUND, not TENANT_RESOLUTION_ERROR; no context call is
    issued and the cache is left as it was. *)
Theorem resolveTenant_lookup_failure
    (req : Request) (st : St W) c st' (s : string) (reply : LookupReply) :
  resolveTenant req st = (c, st') ->
  calls st' = calls st ++ [EvLookup s reply] ->
  lookupFailed reply ->
  c = Normal (tenantNotFound s) /\ tenantCache st' = tenantCache st.
Proof.
  intros R Hcalls Hfail.
  destruct (resolveTenant_run req st c st' R)
    as [[-> _] | (s0 & E & Hf & [[L ->] | (t & st1 & rp & w & L & _ & -> & _)])].
  - now apply calls_grow_neq in Hcalls.
  - destruct (Looked_calls _ _ _ _ L) as [Hc | [reply0 Hc]].
    + rewrite Hc in Hcalls. now apply calls_grow_neq in Hcalls.
    + pose proof Hcalls as Hsame. rewrite Hc in Hsame.
      apply calls_last_inj in Hsame. injection Hsame as -> ->.
      destruct (Looked_fetched s st None st' reply L Hcalls) as (st0 & F & Hcache & _).
      destruct (Fetched_failed_inv s st0 reply None st' F Hfail) as [_ Hc'].
      split; [reflexivity | congruence].
  - simpl in Hcalls. apply app_inj_tail in Hcalls as [_ Hev]. discriminate.
Qed.

(** X10: a tenant is returned only after the context call for it has
    succeeded: when [resolveTenant] returns a tenant, the error is null
    and the last remote call issued is [set_tenant_context] with the id
    of that tenant, resolved without error. *)
Theorem resolveTenant_success_context
    (req : Request) (st : St W) (res : Resolution) (st' : St W) (t : TenantInfo) :
  resolveTenant req st = (Normal res, st') ->
  tenant res = Some t ->
  error res = None /\
  exists evs, calls st' = evs ++ [EvSetContext (id t) (ContextResolved None)].
Proof.
  intros R Ht.
  destruct (resolveTenant_run req st _ st' R)
    as [[_ [(e & _ & [= ->]) | [(v & _ & _ & [= ->]) | (v & _ & _ & _ & [= ->])]]]
       | (s & _ & _ & [[_ [= ->]] | (t' & st1 & reply & w & _ & _ & -> & [= ->])])];
    try discriminate.
  destruct reply as [|[e|]]; try discriminate.
  injection Ht as ->. split; [reflexivity|]. now eexists.
Qed.

(** X11: a resolution issues at most one remote lookup and at most one
    context call, the lookup first; the lookup is for the candidate of
    the request, which has passed the validator, and the context call
    follows a lookup or a cache hit. *)
Theorem resolveTenant_remote_calls (req : Request) (st : St W) :
  exists evs,
    calls (snd (resolveTenant req st)) = calls st ++ evs /\
    (remoteLookups evs <= 1)%nat /\ (contextCalls evs <= 1)%nat /\
    (forall s reply,
        In (EvLookup s reply) evs ->
        extractSubdomain req = Normal (JStr s) /\ isValidSubdomain (JStr s) = true) /\
    (forall i reply pre post,
        evs = pre ++ EvSetContext i reply :: post -> post = []).
Proof.
  destruct (resolveTenant req st) as [c st'] eqn:R. simpl.
  assert (Hnone : forall i (reply : ContextReply) pre post,
             @nil Event = pre ++ EvSetContext i reply :: post -> post = [])
    by (intros i reply pre post Hev; now destruct pre).
  assert (Hone : forall s0 (r0 : LookupReply) i (reply : ContextReply) pre post,
             [EvLookup s0 r0] = pre ++ EvSetContext i reply :: post -> post = [])
    by (intros s0 r0 i reply pre post Hev; destruct pre as [|? [|? ?]]; discriminate).
  destruct (resolveTenant_run req st c st' R)
    as [[-> _] | (s & E & Hf & [[L _] | (t & st1 & rp & w & L & _ & -> & _)])].
  - exists []. rewrite app_nil_r.
    split; [reflexivity | split; [simpl; lia | split; [simpl; lia | split]]].
    + intros s reply [].
    + exact Hnone.
  - destruct (Looked_new_calls _ _ _ _ L) as (evs & Hc & [-> | [reply ->]]).
    + exists [].
      split; [exact Hc | split; [simpl; lia | split; [simpl; lia | split]]].
      * intros s0 reply [].
      * exact Hnone.
    + exists [EvLookup s reply].
      split; [exact Hc | split; [simpl; lia | split; [simpl; lia | split]]].
      * intros s0 r0 [[= <- _] | []]. now split.
      * apply Hone.
  - destruct (Looked_new_calls _ _ _ _ L) as (evs & Hc & [-> | [reply ->]]).
    + exists [EvSetContext (id t) rp]. simpl. rewrite Hc, app_nil_r.
      split; [reflexivity | split; [simpl; lia | split; [simpl; lia | split]]].
      * intros s0 r0 [[=] | []].
      * intros i r pre post Hev.
        destruct pre as [|? [|? ?]]; try discriminate. now injection Hev.
    + exists [EvLookup s reply; EvSetContext (id t) rp]. simpl.
      rewrite Hc, <- app_assoc.
      split; [reflexivity | split; [simpl; lia | split; [simpl; lia | split]]].
      * intros s0 r0 [[= <- _] | [[=] | []]]. now split.
      * intros i r pre post Hev.
        destruct pre as [|? [|? [|? ?]]]; try discriminate. now injection Hev.
Qed.

End RemoteCalls.

Lemma resolveTenant_lookup_failure_witness :
  resolveTenant (requestFor "acme.example.com") (initial (worldDown 0))
    = (Normal (tenantNotFound "acme"),
       withCall (initial (worldDown 0))
         (EvLookup "acme" (LookupResolved None (Some "connection refused")))) /\
  tenantCache
    (withCall (initial (worldDown 0))
       (EvLookup "acme" (LookupResolved None (Some "connection refused"))))
  = tenantCache (initial (worldDown 0)).
Proof.
  split; [reflexivity|].
  refine (proj2 (resolveTenant_lookup_failure
                   (requestFor "acme.example.com") (initial (worldDown 0))
                   (Normal (tenantNotFound "acme")) _ "acme"
                   (LookupResolved None (Some "connection refused")) _ _ _)).
  - reflexivity.
  - reflexivity.
  - simpl. exact I.
Defined.

Lemma resolveTenant_success_context_witness :
  error {| error := None; tenant := Some (tenantInfoOf "acme" acmeRow) |} = None /\
  exists evs,
    calls (snd (resolveTenant (requestFor "acme.example.com") (initial (worldAcme 0))))
    = evs ++ [EvSetContext (id (tenantInfoOf "acme" acmeRow)) (ContextResolved None)].
Proof.
  refine (resolveTenant_success_context
            (requestFor "acme.example.com") (initial (worldAcme 0))
            {| error := None; tenant := Some (tenantInfoOf "acme" acmeRow) |}
            (snd (resolveTenant (requestFor "acme.example.com") (initial (worldAcme 0))))
            (tenantInfoOf "acme" acmeRow) _ _).
  - reflexivity.
  - reflexivity.
Defined.

Section CacheFacts.
Context {W : Type} `{Backend W}.

Lemma cacheKeyOf_inj (s1 s2 : string) : cacheKeyOf s1 = cacheKeyOf s2 -> s1 = s2.
Proof. unfold cacheKeyOf. intros E. now injection E. Qed.

Lemma getTenantInfo_fresh (s : string) (st : St W) entry now w :
  tenantCache st !! cacheKeyOf s = Some entry ->
  date_now (world st) = (now, w) ->
  now - timestamp entry < CACHE_TTL ->
  getTenantInfo s st = (Normal (data entry), withWorld st w).
Proof.
  intros Hentry Hnow Hfresh.
  unfold getTenantInfo, bind, cacheGet. rewrite Hentry.
  unfold dateNow. rewrite Hnow.
  apply Z.ltb_lt in Hfresh. now rewrite Hfresh.
Qed.

Lemma getTenantInfo_missing (s : string) (st : St W) :
  tenantCache st !! cacheKeyOf s = None ->
  exists r st' reply,
    getTenantInfo s st = (Normal r, st') /\ Fetched s st reply r st'.
Proof.
  intros Hmiss. destruct (getTenantInfo_Looked s st) as (r & st' & E & L).
  destruct L as [e ? ? He | e ? ? ? ? ? He | reply r st' _ F].
  - rewrite Hmiss in He. discriminate.
  - rewrite Hmiss in He. discriminate.
  - now exists r, st', reply.
Qed.

Lemma Fetched_reply (s : string) (st : St W) reply r st' :
  Fetched s st reply r st' -> fst (rpc_get_tenant_by_subdomain s (world st)) = reply.
Proof. destruct 1 as [? ? E|? ? ? ? E|? ? ? E|? ? ? ? ? E]; now rewrite E. Qed.

(** A query writes no other key than its own. *)
Lemma Fetched_frame (s : string) (st : St W) reply r st' key :
  Fetched s st reply r st' -> key <> cacheKeyOf s ->
  tenantCache st' !! key = tenantCache st !! key.
Proof.
  intros F Hne. destruct F; simpl; try reflexivity;
    now rewrite lookup_insert_ne by congruence.
Qed.

Lemma Looked_frame (s : string) (st : St W) r st' key :
  Looked s st r st' -> key <> cacheKeyOf s ->
  tenantCache st' !! key = tenantCache st !! key.
Proof.
  intros L Hne. destruct L as [ | ? ? ? ? ? ? _ _ _ F | ? ? ? _ F ].
  - reflexivity.
  - now rewrite (Fetched_frame _ _ _ _ _ key F Hne).
  - now rewrite (Fetched_frame _ _ _ _ _ key F Hne).
Qed.

Lemma Fetched_wellKeyed (s : string) (st : St W) reply r st' :
  Fetched s st reply r st' -> isValidSubdomain (JStr s) = true ->
  cacheWellKeyed st -> cacheWellKeyed st'.
Proof.
  unfold cacheWellKeyed. intros F Hs Hinv key entry.
  destruct F as [ | | | row rows w now w' _ Hst _ ]; simpl; try apply Hinv.
  - destruct (decide (cacheKeyOf s = key)) as [<-|Hne].
    + rewrite lookup_insert_eq. intros [= <-]. exists s.
      split; [reflexivity | split; [exact Hs | discriminate]].
    + rewrite lookup_insert_ne by assumption. apply Hinv.
  - destruct (decide (cacheKeyOf s = key)) as [<-|Hne].
    + rewrite lookup_insert_eq. intros [= <-]. exists s.
      split; [reflexivity | split; [exact Hs|]].
      simpl. intros t [= <-]. now split.
    + rewrite lookup_insert_ne by assumption. apply Hinv.
Qed.

Lemma Looked_wellKeyed (s : string) (st : St W) r st' :
  Looked s st r st' -> isValidSubdomain (JStr s) = true ->
  cacheWellKeyed st -> cacheWellKeyed st'.
Proof.
  destruct 1 as [ | ? ? ? ? ? ? _ _ _ F | ? ? ? _ F ]; intros Hs Hinv.
  - exact Hinv.
  - now apply (Fetched_wellKeyed _ _ _ _ _ F Hs).
  - now apply (Fetched_wellKeyed _ _ _ _ _ F Hs).
Qed.

Lemma Looked_subdomain (s : string) (st : St W) t st' :
  Looked s st (Some t) st' -> cacheWellKeyed st -> subdomain t = s.
Proof.
  intros L Hinv.
  inversion L as [ entry now w He _ _ Hd | ? ? ? ? ? ? _ _ _ F | ? ? ? _ F ]; subst.
  - destruct (Hinv _ _ He) as (s' & Hkey & _ & Ht).
    apply cacheKeyOf_inj in Hkey as ->. symmetry in Hd. now apply Ht.
  - inversion F; subst. reflexivity.
  - inversion F; subst. reflexivity.
Qed.

Lemma resolveTenant_wellKeyed (req : Request) (st : St W) c st' :
  resolveTenant req st = (c, st') -> cacheWellKeyed st -> cacheWellKeyed st'.
Proof.
  intros R Hinv.
  destruct (resolveTenant_run req st c st' R)
    as [[-> _] | (s & _ & Hf & [[L _] | (t & st1 & rp & w & L & _ & -> & _)])].
  - exact Hinv.
  - now apply (Looked_wellKeyed _ _ _ _ L Hf).
  - exact (Looked_wellKeyed _ _ _ _ L Hf Hinv).
Qed.

Lemma reachable_wellKeyed (st : St W) : reachable st -> cacheWellKeyed st.
Proof.
  induction 1 as [w | st st' _ IH Hstep].
  - intros key entry. simpl. rewrite lookup_empty. discriminate.
  - destruct Hstep as [req st r st' R | sub st r st' R | st r st' R | st w].
    + now apply (resolveTenant_wellKeyed req st r st' R).
    + injection R as _ <-. intros key entry. simpl.
      destruct (decide (cacheKeyOf sub = key)) as [<-|Hne].
      * rewrite lookup_delete_eq. discriminate.
      * rewrite lookup_delete_ne by assumption. apply IH.
    + injection R as _ <-. intros key entry. simpl.
      rewrite lookup_empty. discriminate.
    + exact IH.
Qed.

(** X12: in every state the module can reach, the tenant returned by a
    resolution is the one of the request: its [subdomain] is the
    candidate extracted from the request, also when the record comes
    from the cache. *)
Theorem resolveTenant_tenant_of_request
    (req : Request) (st : St W) (res : Resolution) (st' : St W) (t : TenantInfo) :
  reachable st ->
  resolveTenant req st = (Normal res, st') ->
  tenant res = Some t ->
  extractSubdomain req = Normal (JStr (subdomain t)).
Proof.
  intros Hreach R Ht. pose proof (reachable_wellKeyed st Hreach) as Hinv.
  destruct (resolveTenant_run req st _ st' R)
    as [[_ [(e & _ & [= ->]) | [(v & _ & _ & [= ->]) | (v & _ & _ & _ & [= ->])]]]
       | (s & E & _ & [[_ [= ->]] | (t' & st1 & reply & w & L & _ & _ & [= ->])])];
    try discriminate.
  destruct reply as [|[e|]]; try discriminate.
  injection Ht as ->. now rewrite (Looked_subdomain s st t st1 L Hinv).
Qed.

(** X13: a resolution whose candidate has a fresh cache entry does not
    consult the remote lookup: a cached "not found" is answered with
    TENANT_NOT_FOUND and a cached record with the context call for that
    record, whatever the store would answer to a lookup now. *)
Theorem resolveTenant_served_from_cache
    (req : Request) (st : St W) (s : string) (entry : CacheEntry) (now : Z) (w : W) :
  extractSubdomain req = Normal (JStr s) ->
  isValidSubdomain (JStr s) = true ->
  tenantCache st !! cacheKeyOf s = Some entry ->
  date_now (world st) = (now, w) ->
  now - timestamp entry < CACHE_TTL ->
  resolveTenant req st =
    match data entry with
    | None => (Normal (tenantNotFound s), withWorld st w)
    | Some t =>
        let (reply, w') := rpc_set_tenant_context (id t) w in
        (Normal match reply with
                | ContextResolved None => {| error := None; tenant := Some t |}
                | _ => resolutionError
                end,
         withCall (withWorld st w') (EvSetContext (id t) reply))
    end /\
  remoteLookups (calls (snd (resolveTenant req st))) = remoteLookups (calls st) /\
  tenantCache (snd (resolveTenant req st)) = tenantCache st.
Proof.
  intros E Hf Hentry Hnow Hfresh.
  rewrite (resolveTenant_lookup req st s E Hf).
  rewrite (getTenantInfo_fresh s st entry now w Hentry Hnow Hfresh).
  destruct (data entry) as [t|]; simpl.
  - destruct (rpc_set_tenant_context (id t) w) as [reply w'].
    split; [reflexivity|]. simpl. rewrite remoteLookups_app. simpl.
    split; [lia | reflexivity].
  - now repeat split.
Qed.

(** X14: a resolution changes no cache entry other than the one of its
    own candidate: every other key reads the same before and after. *)
Theorem resolveTenant_cache_frame (req : Request) (st : St W) (key : string) :
  (forall s, extractSubdomain req = Normal (JStr s) -> key <> cacheKeyOf s) ->
  tenantCache (snd (resolveTenant req st)) !! key = tenantCache st !! key.
Proof.
  intros Hkey. destruct (resolveTenant req st) as [c st'] eqn:R. simpl.
  destruct (resolveTenant_run req st c st' R)
    as [[-> _] | (s & E & _ & [[L _] | (t & st1 & rp & w & L & _ & -> & _)])].
  - reflexivity.
  - exact (Looked_frame s st _ st' key L (Hkey s E)).
  - exact (Looked_frame s st _ st1 key L (Hkey s E)).
Qed.

(** X15: [clearTenantCache] removes the entry of its subdomain and no
    other; the next lookup for that subdomain queries the remote store,
    however recent the removed entry was. *)
Theorem clearTenantCache_forces_refetch (s : string) (st : St W) (w : W) :
  fst (clearTenantCache s st) = Normal tt /\
  tenantCache (snd (clearTenantCache s st)) !! cacheKeyOf s = None /\
  (forall key, key <> cacheKeyOf s ->
               tenantCache (snd (clearTenantCache s st)) !! key = tenantCache st !! key) /\
  calls (snd (getTenantInfo s (withWorld (snd (clearTenantCache s st)) w)))
  = calls st ++ [EvLookup s (fst (rpc_get_tenant_by_subdomain s w))].
Proof.
  simpl. split; [reflexivity|]. split; [apply lookup_delete_eq|]. split.
  - intros key Hne. now rewrite lookup_delete_ne by congruence.
  - set (st1 := withWorld _ w).
    destruct (getTenantInfo_missing s st1) as (r & st' & reply & E & F).
    { subst st1. simpl. apply lookup_delete_eq. }
    rewrite E. simpl. rewrite (Fetched_calls _ _ _ _ _ F).
    now rewrite <- (Fetched_reply _ _ _ _ _ F).
Qed.

Lemma remoteLookups_context (evs : list Event) i reply :
  remoteLookups (evs ++ [EvSetContext i reply]) = remoteLookups evs.
Proof. rewrite remoteLookups_app. simpl. lia. Qed.

Lemma Fetched_size (s : string) (st : St W) reply r st' :
  Fetched s st reply r st' ->
  (base.size (tenantCache st') <= S (base.size (tenantCache st)))%nat.
Proof.
  destruct 1; simpl; try lia;
    rewrite map_size_insert; destruct (tenantCache st !! cacheKeyOf s);
    simpl; unfold Datatypes.id; lia.
Qed.

Lemma Looked_size (s : string) (st : St W) r st' :
  Looked s st r st' ->
  (base.size (tenantCache st) <= remoteLookups (calls st))%nat ->
  (base.size (tenantCache st') <= remoteLookups (calls st'))%nat.
Proof.
  destruct 1 as [ | ? ? ? ? ? ? _ _ _ F | ? ? ? _ F ]; intros Hinv.
  - exact Hinv.
  - pose proof (Fetched_size _ _ _ _ _ F) as Hs. simpl in Hs.
    rewrite (Fetched_calls _ _ _ _ _ F), remoteLookups_app. simpl. lia.
  - pose proof (Fetched_size _ _ _ _ _ F) as Hs.
    rewrite (Fetched_calls _ _ _ _ _ F), remoteLookups_app. simpl. lia.
Qed.

Lemma reachable_size (st : St W) :
  reachable st -> (base.size (tenantCache st) <= remoteLookups (calls st))%nat.
Proof.
  induction 1 as [w | st st' _ IH Hstep].
  - simpl. rewrite map_size_empty. lia.
  - destruct Hstep as [req st r st' R | sub st r st' R | st r st' R | st w].
    + destruct (resolveTenant_run req st r st' R)
        as [[-> _] | (s & _ & _ & [[L _] | (t & st1 & rp & w & L & _ & -> & _)])].
      * exact IH.
      * now apply (Looked_size _ _ _ _ L).
      * simpl. rewrite remoteLookups_context. now apply (Looked_size _ _ _ _ L).
    + injection R as _ <-. simpl.
      pose proof (map_size_delete (cacheKeyOf sub) (tenantCache st)) as Hd.
      destruct (tenantCache st !! cacheKeyOf sub);
        simpl in Hd; unfold Datatypes.id in Hd; lia.
    + injection R as _ <-. simpl. rewrite map_size_empty. lia.
    + exact IH.
Qed.

(** X16: [clearAllTenantCache] empties the cache: the statistics then
    show size 0 and no key, and the next lookup for any subdomain
    queries the remote store. *)
Theorem clearAllTenantCache_empties (st : St W) (s : string) (w : W) :
  fst (getTenantCacheStats (snd (clearAllTenantCache st)))
  = Normal {| Middleware.size := 0; keys := ∅ |} /\
  calls (snd (getTenantInfo s (withWorld (snd (clearAllTenantCache st)) w)))
  = calls st ++ [EvLookup s (fst (rpc_get_tenant_by_subdomain s w))].
Proof.
  split.
  - unfold getTenantCacheStats, clearAllTenantCache. simpl.
    now rewrite map_size_empty, dom_empty_L.
  - set (st1 := withWorld _ w).
    destruct (getTenantInfo_missing s st1) as (r & st' & reply & E & F).
    { subst st1. simpl. apply lookup_empty. }
    rewrite E. simpl. rewrite (Fetched_calls _ _ _ _ _ F).
    now rewrite <- (Fetched_reply _ _ _ _ _ F).
Qed.

(** X17: in every state the module can reach, the statistics leave the
    state as it is, report as size the number of keys, never more than
    the number of remote lookups issued so far, and every key is
    "tenant:" followed by a subdomain that passes the validator. *)
Theorem getTenantCacheStats_reachable (st : St W) :
  reachable st ->
  exists stats,
    getTenantCacheStats st = (Normal stats, st) /\
    Middleware.size stats = base.size (keys stats) /\
    (Middleware.size stats <= remoteLookups (calls st))%nat /\
    (forall key, key ∈ keys stats <-> is_Some (tenantCache st !! key)) /\
    (forall key, key ∈ keys stats ->
                 exists s, key = cacheKeyOf s /\ isValidSubdomain (JStr s) = true).
Proof.
  intros Hreach. eexists. split; [reflexivity|]. simpl.
  split; [now rewrite size_dom|].
  split; [now apply reachable_size|].
  split; [intros key; apply elem_of_dom|].
  intros key Hin. apply elem_of_dom in Hin as [entry He].
  destruct (reachable_wellKeyed st Hreach key entry He) as (s & Hk & Hs & _).
  now exists s.
Qed.

End CacheFacts.

Lemma resolveTenant_tenant_of_request_witness :
  extractSubdomain (requestFor "acme.example.com")
  = Normal (JStr (subdomain (tenantInfoOf "acme" acmeRow))).
Proof.
  refine (resolveTenant_tenant_of_request
            (requestFor "acme.example.com") (initial (worldAcme 0))
            {| error := None; tenant := Some (tenantInfoOf "acme" acmeRow) |}
            (snd (resolveTenant (requestFor "acme.example.com") (initial (worldAcme 0))))
            (tenantInfoOf "acme" acmeRow) (reachable_initial _) _ _).
  - reflexivity.
  - reflexivity.
Defined.

(** The store reports "go" as suspended, but the cache still holds an
    active record for it that is 100 ms old. *)
Lemma resolveTenant_served_from_cache_witness :
  resolveTenant (requestFor "go.example.com")
    (withCache (initial (worldSuspended 100)) (cacheKeyOf "go")
       {| data := Some (tenantInfoOf "go" acmeRow); timestamp := 0 |})
  = (Normal {| error := None; tenant := Some (tenantInfoOf "go" acmeRow) |},
     withCall
       (withCache (initial (worldSuspended 100)) (cacheKeyOf "go")
          {| data := Some (tenantInfoOf "go" acmeRow); timestamp := 0 |})
       (EvSetContext "t1" (ContextResolved None))).
Proof.
  refine (proj1 (resolveTenant_served_from_cache
                   (requestFor "go.example.com")
                   (withCache (initial (worldSuspended 100)) (cacheKeyOf "go")
                      {| data := Some (tenantInfoOf "go" acmeRow); timestamp := 0 |})
                   "go" {| data := Some (tenantInfoOf "go" acmeRow); timestamp := 0 |}
                   100 (worldSuspended 100) _ _ _ _ _)).
  - reflexivity.
  - reflexivity.
  - reflexivity.
  - reflexivity.
  - reflexivity.
Defined.

Lemma resolveTenant_cache_frame_witness :
  tenantCache
    (snd (resolveTenant (requestFor "acme.example.com")
            (withCache (initial (worldAcme 0)) (cacheKeyOf "other")
               {| data := None; timestamp := 0 |})))
    !! cacheKeyOf "other"
  = tenantCache
      (withCache (initial (worldAcme 0)) (cacheKeyOf "other")
         {| data := None; timestamp := 0 |})
      !! cacheKeyOf "other".
Proof.
  refine (resolveTenant_cache_frame
            (requestFor "acme.example.com")
            (withCache (initial (worldAcme 0)) (cacheKeyOf "other")
               {| data := None; timestamp := 0 |})
            (cacheKeyOf "other") _).
  intros s E. injection E as <-. discriminate.
Defined.

(** The state left by the resolution of a request for
    acme.example.com: the cache holds the one key "tenant:acme", after
    one remote lookup. *)
Lemma getTenantCacheStats_reachable_witness :
  resolveTenant (requestFor "acme.example.com") (initial (worldAcme 0))
  = (Normal {| error := None; tenant := Some (tenantInfoOf "acme" acmeRow) |},
     (withCall
         (withCache
            (withCall (initial (worldAcme 0))
               (EvLookup "acme" (LookupResolved (Some [acmeRow]) None)))
            (cacheKeyOf "acme")
            {| data := Some (tenantInfoOf "acme" acmeRow); timestamp := 0 |})
         (EvSetContext "t1" (ContextResolved None)))) /\
  exists stats,
    getTenantCacheStats
      (withCall
          (withCache
             (withCall (initial (worldAcme 0))
                (EvLookup "acme" (LookupResolved (Some [acmeRow]) None)))
             (cacheKeyOf "acme")
             {| data := Some (tenantInfoOf "acme" acmeRow); timestamp := 0 |})
          (EvSetContext "t1" (ContextResolved None)))
    = (Normal stats,
       (withCall
           (withCache
              (withCall (initial (worldAcme 0))
                 (EvLookup "acme" (LookupResolved (Some [acmeRow]) None)))
              (cacheKeyOf "acme")
              {| data := Some (tenantInfoOf "acme" acmeRow); timestamp := 0 |})
           (EvSetContext "t1" (ContextResolved None)))) /\
    Middleware.size stats = 1%nat /\
    cacheKeyOf "acme" ∈ keys stats /\
    Middleware.size stats = base.size (keys stats) /\
    (Middleware.size stats
     <= remoteLookups
          (calls
             (withCall
                 (withCache
                    (withCall (initial (worldAcme 0))
                       (EvLookup "acme" (LookupResolved (Some [acmeRow]) None)))
                    (cacheKeyOf "acme")
                    {| data := Some (tenantInfoOf "acme" acmeRow); timestamp := 0 |})
                 (EvSetContext "t1" (ContextResolved None)))))%nat /\
    (forall key,
        key ∈ keys stats <->
        is_Some
          (tenantCache
             (withCall
                 (withCache
                    (withCall (initial (worldAcme 0))
                       (EvLookup "acme" (LookupResolved (Some [acmeRow]) None)))
                    (cacheKeyOf "acme")
                    {| data := Some (tenantInfoOf "acme" acmeRow); timestamp := 0 |})
                 (EvSetContext "t1" (ContextResolved None)))
             !! key)) /\
    (forall key, key ∈ keys stats ->
                 exists s, key = cacheKeyOf s /\ isValidSubdomain (JStr s) = true).
Proof.
  split; [reflexivity|].
  destruct (getTenantCacheStats_reachable
              (withCall
                  (withCache
                     (withCall (initial (worldAcme 0))
                        (EvLookup "acme" (LookupResolved (Some [acmeRow]) None)))
                     (cacheKeyOf "acme")
                     {| data := Some (tenantInfoOf "acme" acmeRow); timestamp := 0 |})
                  (EvSetContext "t1" (ContextResolved None))))
    as (stats & Hrun & Hsize & Hbound & Hkeys & Hshape).
  - refine (reachable_step (initial (worldAcme 0)) _ (reachable_initial _)
              (step_resolve (requestFor "acme.example.com") _
                 (Normal {| error := None;
                            tenant := Some (tenantInfoOf "acme" acmeRow) |}) _ _)).
    reflexivity.
  - exists stats. split; [exact Hrun|].
    assert (Hin : cacheKeyOf "acme" ∈ keys stats).
    { apply Hkeys. eexists. reflexivity. }
    split; [|split; [exact Hin|tauto]].
    injection Hrun as <-. reflexivity.
Defined.

End OrchestratorFacts.

(* ===================================================================== *)
(** ** The middleware mode and the helpers of callers *)
(* ===================================================================== *)

Module MiddlewareFacts.
Import JsString StringFacts ParsingFacts Tenant ResolutionFacts Middleware.

Section WithBackend.
Context {W : Type} `{Backend W}.

(** The middleware mode in terms of the plain mode: the request
    properties are written as the plain result says and [next] is
    called; when the plain run ended in its own catch-all, that call is
    the only one; otherwise a throwing [next] is caught and called a
    second time with the resolution error stored. *)
Lemma resolveTenantNext_run {R : Type}
    (req : Request) (next : N MwState R) (ctx : TenantContext) (st : St W) :
  resolveTenantNext req next (ctx, st) =
    let (c, st') := resolveTenant req st in
    match c with
    | Normal res =>
        if match error res with
           | Some e => String.eqb (code e) "TENANT_RESOLUTION_ERROR"
           | None => false
           end
        then next (contextAfter ctx res, st')
        else
          match next (contextAfter ctx res, st') with
          | (Normal r, out) => (Normal r, out)
          | (Throw _, out) =>
              next ({| req_tenant := req_tenant (fst out);
                       req_tenantError := Holds
                         {| code := "TENANT_RESOLUTION_ERROR";
                            message := "Error resolving tenant";
                            details := "An internal error occurred while resolving tenant information" |} |},
                    snd out)
          end
    | Throw e => (Throw e, (ctx, st'))
    end.
Proof.
  destruct (extractSubdomain req) as [v|e] eqn:E.
  - destruct (truthy v) eqn:Hv.
    + destruct (isValidSubdomain v) eqn:Hf.
      * destruct (isValidSubdomain_is_string v Hf) as [s ->].
        rewrite (resolveTenant_lookup req st s E Hf).
        unfold resolveTenantNext, tryCatchN, bindN, liftCompletion, liftSt.
        rewrite E. cbv beta iota. rewrite Hv, Hf. cbv beta iota. cbn [negb fst snd].
        destruct (getTenantInfo_Looked s st) as (r & st1 & -> & _).
        cbv beta iota. destruct r as [t|].
        -- cbn [fst snd]. rewrite setTenantContext_run.
           destruct (rpc_set_tenant_context (id t) (world st1)) as [reply w].
           destruct reply as [|[e|]];
             unfold setTenant, setTenantError, contextAfter; cbn;
             reflexivity.
        -- unfold setTenantError, contextAfter. cbn.
           destruct (next _) as [[r|e] out]; reflexivity.
      * rewrite (resolveTenant_bad_format req st v E Hv Hf).
        unfold resolveTenantNext, tryCatchN, bindN, liftCompletion.
        rewrite E. cbv beta iota. rewrite Hv, Hf. cbv beta iota.
        unfold setTenantError, contextAfter. cbn.
        destruct (next _) as [[r|e] out]; reflexivity.
    + rewrite (resolveTenant_no_candidate req st v E Hv).
      unfold resolveTenantNext, tryCatchN, bindN, liftCompletion.
      rewrite E. cbv beta iota. rewrite Hv. cbv beta iota.
      unfold setTenantError, contextAfter. cbn.
      destruct (next _) as [[r|e] out]; reflexivity.
  - rewrite (resolveTenant_thrown req st e E).
    unfold resolveTenantNext, tryCatchN, bindN, liftCompletion.
    rewrite E. reflexivity.
Qed.

(** X18: in middleware mode, when the callback returns, the run is
    the plain resolution followed by one call of [next]: [next] runs in
    the state the plain resolution leaves, on the request in which the
    plain result is stored (the tenant with a null error, or the error
    with the tenant property left as it was), and the middleware
    returns what [next] returns. *)
Theorem tenantMiddleware_calls_next {R : Type}
    (req : Request) (next : N MwState R) (ctx : TenantContext) (st : St W)
    (res : Resolution) (st' : St W) (r : R) (out : MwState) :
  resolveTenant req st = (Normal res, st') ->
  next (contextAfter ctx res, st') = (Normal r, out) ->
  tenantMiddleware req next (ctx, st) = (Normal r, out).
Proof.
  intros Hres Hnext. unfold tenantMiddleware.
  rewrite resolveTenantNext_run, Hres. cbv beta iota. rewrite Hnext.
  now destruct (match error res with Some e => _ | None => _ end).
Qed.

(** X19: in middleware mode a callback that throws is called a second
    time, unless the plain resolution itself ended with
    TENANT_RESOLUTION_ERROR: the exception is caught, the resolution
    error is stored in the request as the callback left it (a tenant
    stored before stays stored) and the middleware ends as the second
    call of [next] ends.  After a resolution error the callback is
    called once and its exception escapes. *)
Theorem tenantMiddleware_next_throws {R : Type}
    (req : Request) (next : N MwState R) (ctx : TenantContext) (st : St W)
    (res : Resolution) (st' : St W) (x : string) (out : MwState) :
  resolveTenant req st = (Normal res, st') ->
  next (contextAfter ctx res, st') = (Throw x, out) ->
  ((forall e, error res = Some e -> code e <> "TENANT_RESOLUTION_ERROR") ->
   tenantMiddleware req next (ctx, st) =
     next ({| req_tenant := req_tenant (fst out);
              req_tenantError := Holds
                {| code := "TENANT_RESOLUTION_ERROR";
                   message := "Error resolving tenant";
                   details := "An internal error occurred while resolving tenant information" |} |},
           snd out)) /\
  ((exists e, error res = Some e /\ code e = "TENANT_RESOLUTION_ERROR") ->
   tenantMiddleware req next (ctx, st) = (Throw x, out)).
Proof.
  intros Hres Hnext. unfold tenantMiddleware.
  rewrite resolveTenantNext_run, Hres. cbv beta iota. rewrite Hnext.
  split.
  - intros Hcode. destruct (error res) as [e|]; [|reflexivity].
    specialize (Hcode e eq_refl). apply String.eqb_neq in Hcode.
    now rewrite Hcode.
  - intros (e & -> & Hcode). rewrite Hcode. reflexivity.
Qed.

(** X20: after a resolution, [hasValidTenantContext] is truthy on the
    request exactly when the resolution returned a tenant whose id is
    not empty; a tenant left on the request by an earlier run does not
    make a failed resolution valid. *)
Theorem hasValidTenantContext_after_resolution
    (req : Request) (st : St W) (res : Resolution) (st' : St W) (ctx : TenantContext) :
  resolveTenant req st = (Normal res, st') ->
  truthy (hasValidTenantContext (contextAfter ctx res)) = true <->
  exists t, tenant res = Some t /\ id t <> "".
Proof.
  intros Hres.
  assert (Hshape : (exists t, tenant res = Some t) \/
                   (tenant res = None /\ exists e, error res = Some e)).
  { destruct (OrchestratorFacts.resolveTenant_run req st _ st' Hres)
      as [[_ [(e & _ & [= ->]) | [(v & _ & _ & [= ->]) | (v & _ & _ & _ & [= ->])]]]
         | (s & _ & _ & [[_ [= ->]] | (t & st1 & reply & w & _ & _ & _ & [= ->])])];
      try (right; split; [reflexivity | now eexists]).
    destruct reply as [|[e|]];
      try (right; split; [reflexivity | now eexists]).
    left. now eexists. }
  unfold contextAfter, hasValidTenantContext.
  destruct Hshape as [[t Ht] | [Ht [e He]]]; rewrite Ht.
  - cbn. destruct (String.eqb_spec (id t) "") as [E|E]; cbn.
    + rewrite E. cbn. split; [discriminate|].
      intros (t' & Ht' & Hne). injection Ht' as <-. contradiction.
    + split; [intros _; now exists t | reflexivity].
  - rewrite He. cbn. split; [|intros (t & Hd & _); discriminate].
    destruct (req_tenant ctx) as [ | | t]; cbn; try discriminate.
    destruct (String.eqb_spec (id t) "") as [E|E]; cbn; [|discriminate].
    rewrite E. cbn. discriminate.
Qed.

End WithBackend.

(** X21: the merged configuration is the default when there is no
    tenant or the tenant has no settings; otherwise a key that the
    tenant's settings mention takes the tenant's value and every other
    key keeps its default. *)
Theorem getTenantConfig_lookup
    (t : TenantInfo) (defaultConfig : gmap string ConfigValue) :
  getTenantConfig None defaultConfig = defaultConfig /\
  (settings t = [] -> getTenantConfig (Some t) defaultConfig = defaultConfig) /\
  (forall k v, NoDup (settings t).*1 -> (k, v) ∈ settings t ->
               getTenantConfig (Some t) defaultConfig !! k = Some (CStr v)) /\
  (forall k, k ∉ (settings t).*1 ->
             getTenantConfig (Some t) defaultConfig !! k = defaultConfig !! k).
Proof.
  unfold getTenantConfig, settingsObject. split; [reflexivity|]. split; [|split].
  - intros ->. simpl. rewrite fmap_empty. apply (left_id_L ∅ (∪)).
  - intros k v Hnd Hin. apply lookup_union_Some_l.
    rewrite lookup_fmap. apply (elem_of_list_to_map (M := gmap string)) in Hin; [|exact Hnd].
    now rewrite Hin.
  - intros k Hk. apply lookup_union_r. rewrite lookup_fmap.
    apply (not_elem_of_list_to_map_1 (M := gmap string)) in Hk. now rewrite Hk.
Qed.

Lemma tenantMiddleware_calls_next_witness :
  tenantMiddleware (requestFor "acme.example.com") nextReturning
    (blankContext, initial (worldAcme 0))
  = (Normal {| req_tenant := Holds (tenantInfoOf "acme" acmeRow);
               req_tenantError := Null |},
     ({| req_tenant := Holds (tenantInfoOf "acme" acmeRow); req_tenantError := Null |},
      snd (resolveTenant (requestFor "acme.example.com") (initial (worldAcme 0))))).
Proof.
  refine (tenantMiddleware_calls_next
            (requestFor "acme.example.com") nextReturning blankContext
            (initial (worldAcme 0))
            {| error := None; tenant := Some (tenantInfoOf "acme" acmeRow) |}
            (snd (resolveTenant (requestFor "acme.example.com") (initial (worldAcme 0))))
            _ _ _ _).
  - reflexivity.
  - reflexivity.
Defined.

Lemma tenantMiddleware_next_throws_witness :
  tenantMiddleware (requestFor "acme.example.com") nextThrowing
    (blankContext, initial (worldAcme 0))
  = (Throw "next failed",
     ({| req_tenant := Holds (tenantInfoOf "acme" acmeRow);
         req_tenantError := Holds
           {| code := "TENANT_RESOLUTION_ERROR";
              message := "Error resolving tenant";
              details := "An internal error occurred while resolving tenant information" |} |},
      snd (resolveTenant (requestFor "acme.example.com") (initial (worldAcme 0))))).
Proof.
  refine (proj1 (tenantMiddleware_next_throws
                   (requestFor "acme.example.com") nextThrowing blankContext
                   (initial (worldAcme 0))
                   {| error := None; tenant := Some (tenantInfoOf "acme" acmeRow) |}
                   (snd (resolveTenant (requestFor "acme.example.com")
                           (initial (worldAcme 0))))
                   "next failed"
                   ({| req_tenant := Holds (tenantInfoOf "acme" acmeRow);
                       req_tenantError := Null |},
                    snd (resolveTenant (requestFor "acme.example.com")
                           (initial (worldAcme 0))))
                   _ _) _).
  - reflexivity.
  - reflexivity.
  - intros e E. discriminate E.
Defined.

Lemma hasValidTenantContext_after_resolution_witness :
  truthy (hasValidTenantContext
            (contextAfter blankContext
               {| error := None; tenant := Some (tenantInfoOf "acme" acmeRow) |})) = true <->
  exists t, tenant {| error := None; tenant := Some (tenantInfoOf "acme" acmeRow) |} = Some t
            /\ id t <> "".
Proof.
  refine (hasValidTenantContext_after_resolution
            (requestFor "acme.example.com") (initial (worldAcme 0))
            {| error := None; tenant := Some (tenantInfoOf "acme" acmeRow) |}
            (snd (resolveTenant (requestFor "acme.example.com") (initial (worldAcme 0))))
            blankContext _).
  reflexivity.
Defined.

End MiddlewareFacts.

(* ===================================================================== *)
(** ** The API route *)
(* ===================================================================== *)

Module PhrasesFacts.
Import JsString StringFacts ParsingFacts Tenant ResolutionFacts Middleware PhrasesApi.

(** *** sanitizeContent *)

Lemma replaceAll_append (c : ascii) (r a b : string) :
  replaceAll c r (a +:+ b) = replaceAll c r a +:+ replaceAll c r b.
Proof.
  induction a as [|d a IH]; [reflexivity|].
  rewrite append_cons. simpl. destruct (Ascii.eqb d c).
  - now rewrite IH, append_assoc.
  - now rewrite IH, append_cons.
Qed.

(** Case analysis on a character: one of the five that are escaped, or
    another one. *)
Ltac special_cases c :=
  destruct (Ascii.eqb_spec c "&") as [->|?];
  [|destruct (Ascii.eqb_spec c "<") as [->|?];
    [|destruct (Ascii.eqb_spec c ">") as [->|?];
      [|destruct (Ascii.eqb_spec c "034") as [->|?];
        [|destruct (Ascii.eqb_spec c "'") as [->|?]]]]].

Lemma escapeChar_other (c : ascii) :
  c <> "&"%char -> c <> "<"%char -> c <> ">"%char -> c <> "034"%char -> c <> "'"%char ->
  escapeChar c = String c "".
Proof.
  intros H1 H2 H3 H4 H5. unfold escapeChar.
  apply Ascii.eqb_neq in H1, H2, H3, H4, H5.
  now rewrite H1, H2, H3, H4, H5.
Qed.

(** The five replacements, one after the other, escape each character
    once. *)
Lemma replacements_escape (s : string) :
  replaceAll "'" "&#x27;"
    (replaceAll "034" "&quot;"
       (replaceAll ">" "&gt;"
          (replaceAll "<" "&lt;"
             (replaceAll "&" "&amp;" s)))) = escapeHtml s.
Proof.
  induction s as [|c s IH]; [reflexivity|].
  cbn [escapeHtml]. rewrite <- IH.
  special_cases c.
  - cbn [replaceAll Ascii.eqb Bool.eqb]. cbn.
    rewrite !replaceAll_append. reflexivity.
  - cbn. rewrite !replaceAll_append. reflexivity.
  - cbn. rewrite !replaceAll_append. reflexivity.
  - cbn. rewrite !replaceAll_append. reflexivity.
  - cbn. reflexivity.
  - rewrite escapeChar_other by assumption.
    rewrite append_cons, append_nil. cbn [replaceAll].
    repeat match goal with
           | Hne : c <> ?d |- context [Ascii.eqb c ?d] =>
               rewrite (proj2 (Ascii.eqb_neq c d) Hne); cbn [replaceAll]
           end.
    reflexivity.
Qed.

Lemma sanitizeContent_string (s : string) :
  sanitizeContent (JStr s) = trim (escapeHtml s).
Proof.
  unfold sanitizeContent. cbn [truthy isString].
  destruct (String.eqb_spec s "") as [->|Hne]; [reflexivity|].
  cbn [negb orb]. now rewrite replacements_escape.
Qed.

Lemma sanitizeContent_other (v : JsVal) :
  isString v = false -> sanitizeContent v = "".
Proof.
  unfold sanitizeContent. intros ->. now rewrite orb_true_r.
Qed.

Lemma hasChar_append (c : ascii) (a b : string) :
  hasChar c (a +:+ b) = hasChar c a || hasChar c b.
Proof.
  induction a as [|d a IH]; [reflexivity|].
  rewrite append_cons. simpl. now rewrite IH, orb_assoc.
Qed.

Lemma hasChar_trimStart (c : ascii) (s : string) :
  hasChar c s = false -> hasChar c (trimStart s) = false.
Proof.
  induction s as [|d s IH]; [reflexivity|].
  intros E. cbn [trimStart]. destruct (isWhiteSpace d); [|exact E].
  simpl in E. apply orb_false_iff in E as [_ E]. auto.
Qed.

Lemma hasChar_trimEnd (c : ascii) (s : string) :
  hasChar c s = false -> hasChar c (trimEnd s) = false.
Proof.
  induction s as [|d s IH]; [reflexivity|].
  intros E. simpl in E. apply orb_false_iff in E as [Ed Es].
  specialize (IH Es). cbn [trimEnd].
  destruct (trimEnd s) as [|a r].
  - destruct (isWhiteSpace d); [reflexivity|]. simpl. now rewrite Ed.
  - cbn [hasChar] in *. now rewrite Ed, IH.
Qed.

Lemma hasChar_escapeHtml (c : ascii) (s : string) :
  c = "<"%char \/ c = ">"%char \/ c = "034"%char \/ c = "'"%char ->
  hasChar c (escapeHtml s) = false.
Proof.
  intros Hc. induction s as [|d s IH]; [reflexivity|].
  cbn [escapeHtml]. rewrite hasChar_append, IH, orb_false_r.
  special_cases d;
    try (destruct Hc as [-> | [-> | [-> | ->]]]; reflexivity).
  rewrite escapeChar_other by assumption. simpl. rewrite orb_false_r.
  apply Ascii.eqb_neq. destruct Hc as [-> | [-> | [-> | ->]]]; assumption.
Qed.

(** X22: whatever the content, the sanitized text contains none of the
    characters <, >, double quote and apostrophe. *)
Theorem sanitizeContent_no_markup (content : JsVal) :
  hasChar "<" (sanitizeContent content) = false /\
  hasChar ">" (sanitizeContent content) = false /\
  hasChar "034" (sanitizeContent content) = false /\
  hasChar "'" (sanitizeContent content) = false.
Proof.
  destruct (isString content) eqn:Hs.
  - destruct content as [ | | | | s | ]; try discriminate.
    rewrite sanitizeContent_string. unfold trim.
    repeat split; apply hasChar_trimEnd, hasChar_trimStart, hasChar_escapeHtml; tauto.
  - rewrite (sanitizeContent_other content Hs). now repeat split.
Qed.

(** White space is not escaped, and the entity of any other character
    begins and ends with a character that is not white space. *)
Lemma escapeChar_space (c : ascii) :
  isWhiteSpace c = true -> escapeChar c = String c "".
Proof.
  intros Hw. special_cases c; try discriminate. now apply escapeChar_other.
Qed.

Lemma trimStart_escapeChar (c : ascii) (rest : string) :
  isWhiteSpace c = false ->
  trimStart (escapeChar c +:+ rest) = escapeChar c +:+ rest.
Proof.
  intros Hw. special_cases c; try reflexivity.
  rewrite escapeChar_other by assumption.
  rewrite append_cons, append_nil. cbn [trimStart]. now rewrite Hw.
Qed.

Lemma trimStart_escapeHtml (s : string) :
  trimStart (escapeHtml s) = escapeHtml (trimStart s).
Proof.
  induction s as [|c s IH]; [reflexivity|].
  cbn [escapeHtml trimStart]. destruct (isWhiteSpace c) eqn:Hw.
  - rewrite (escapeChar_space c Hw), append_cons, append_nil.
    cbn [trimStart]. now rewrite Hw.
  - now rewrite trimStart_escapeChar.
Qed.

Lemma trimEnd_append (a b : string) :
  trimEnd (a +:+ b) =
    match trimEnd b with
    | EmptyString => trimEnd a
    | String _ _ => a +:+ trimEnd b
    end.
Proof.
  induction a as [|c a IH].
  - rewrite append_nil. now destruct (trimEnd b).
  - rewrite append_cons. cbn [trimEnd]. rewrite IH.
    destruct (trimEnd b) as [|d r]; [reflexivity|].
    rewrite append_cons.
    destruct a; rewrite ?append_nil, ?append_cons; reflexivity.
Qed.

Lemma trimEnd_escapeChar (c : ascii) :
  trimEnd (escapeChar c) = if isWhiteSpace c then "" else escapeChar c.
Proof.
  special_cases c; try reflexivity.
  rewrite escapeChar_other by assumption. cbn [trimEnd].
  now destruct (isWhiteSpace c).
Qed.

Lemma escapeChar_nonempty (c : ascii) : escapeChar c <> "".
Proof.
  special_cases c; try discriminate.
  rewrite escapeChar_other by assumption. discriminate.
Qed.

Lemma escapeHtml_empty (s : string) : escapeHtml s = "" -> s = "".
Proof.
  destruct s as [|c s]; [reflexivity|]. cbn [escapeHtml]. intros E.
  apply append_eq_empty in E as [E _]. now apply escapeChar_nonempty in E.
Qed.

Lemma trimEnd_escapeHtml (s : string) :
  trimEnd (escapeHtml s) = escapeHtml (trimEnd s).
Proof.
  induction s as [|c s IH]; [reflexivity|].
  cbn [escapeHtml trimEnd]. rewrite trimEnd_append, IH.
  destruct (trimEnd s) as [|d r] eqn:Et.
  - cbn [escapeHtml]. rewrite trimEnd_escapeChar.
    destruct (isWhiteSpace c); [reflexivity|].
    cbn [escapeHtml]. now rewrite append_empty_r.
  - destruct (escapeHtml (String d r)) as [|a x] eqn:Ee.
    + apply escapeHtml_empty in Ee. discriminate.
    + now rewrite <- Ee.
Qed.

Lemma trim_escapeHtml (s : string) : trim (escapeHtml s) = escapeHtml (trim s).
Proof. unfold trim. now rewrite trimStart_escapeHtml, trimEnd_escapeHtml. Qed.

(** X23: sanitizing a string is trimming it and then escaping each of
    its characters once (& as an entity first, so that the entities are
    not escaped again): escaping and trimming commute. *)
Theorem sanitizeContent_escapes_trimmed (s : string) :
  sanitizeContent (JStr s) = escapeHtml (trim s).
Proof. rewrite sanitizeContent_string. apply trim_escapeHtml. Qed.

(** Escaping loses nothing: different texts have different escaped
    forms. *)
Lemma escapeHtml_inj (a : string) :
  forall b, escapeHtml a = escapeHtml b -> a = b.
Proof.
  induction a as [|c a IH]; intros [|d b] E.
  - reflexivity.
  - symmetry in E. apply escapeHtml_empty in E. discriminate.
  - apply escapeHtml_empty in E. discriminate.
  - cbn [escapeHtml] in E.
    special_cases c; special_cases d;
      repeat match type of E with
             | context [escapeChar ?x] =>
                 is_var x; rewrite (escapeChar_other x) in E by assumption
             end;
      cbv [escapeChar Ascii.eqb Bool.eqb andb] in E;
      rewrite ?append_cons, ?append_nil in E;
      try discriminate E;
      try (injection E as E; f_equal; now apply IH);
      try (injection E as Ec E; congruence).
    injection E as -> E. f_equal. now apply IH.
Qed.

(** X24: two strings have the same sanitized form exactly when they are
    equal up to the white space at their ends; so the original text,
    trimmed, can be recovered from the sanitized text. *)
Theorem sanitizeContent_injective (a b : string) :
  sanitizeContent (JStr a) = sanitizeContent (JStr b) <-> trim a = trim b.
Proof.
  rewrite !sanitizeContent_string, !trim_escapeHtml. split.
  - apply escapeHtml_inj.
  - now intros ->.
Qed.

(** *** handler *)

Section Handler.
Context {W : Type} `{Backend W}.
Variable handleGetPhrases :
  ApiRequest -> TenantInfo -> gmap string ConfigValue -> N (@ApiState W) unit.

Lemma setCorsHeaders_run (res : Response) (st : St W) :
  setCorsHeaders (res, st) = (Normal tt, (withCors res, st)).
Proof.
  unfold setCorsHeaders, bindN, setHeader, withCors, corsHeaders. cbn.
  repeat rewrite <- app_assoc. reflexivity.
Qed.

(** A failed resolution has no tenant and one of the four codes. *)
Lemma resolveTenant_error_shape (req : Request) (st : St W) r st' e :
  resolveTenant req st = (Normal r, st') -> error r = Some e ->
  tenant r = None /\ In (code e) errorCodes.
Proof.
  intros R He.
  destruct (OrchestratorFacts.resolveTenant_run req st _ st' R)
    as [[_ [(x & _ & [= ->]) | [(v & _ & _ & [= ->]) | (v & _ & _ & _ & [= ->])]]]
       | (s & _ & _ & [[_ [= ->]] | (t & st1 & reply & w & _ & _ & _ & [= ->])])];
    try (injection He as <-; split; [reflexivity | simpl; tauto]).
  destruct reply as [|[x|]]; try discriminate;
    injection He as <-; split; [reflexivity | simpl; tauto | reflexivity | simpl; tauto].
Qed.

Lemma resolveTenant_tenant_shape (req : Request) (st : St W) r st' t :
  resolveTenant req st = (Normal r, st') -> tenant r = Some t -> error r = None.
Proof.
  intros R Ht.
  destruct (OrchestratorFacts.resolveTenant_run req st _ st' R)
    as [[_ [(x & _ & [= ->]) | [(v & _ & _ & [= ->]) | (v & _ & _ & _ & [= ->])]]]
       | (s & _ & _ & [[_ [= ->]] | (t' & st1 & reply & w & _ & _ & _ & [= ->])])];
    try discriminate.
  now destruct reply as [|[x|]].
Qed.

Lemma resolveTenant_returns (req : Request) (st : St W) :
  exists r st', resolveTenant req st = (Normal r, st').
Proof.
  destruct (resolveTenant req st) as [c st'] eqn:R.
  destruct (OrchestratorFacts.resolveTenant_run req st c st' R)
    as [[_ [(x & _ & ->) | [(v & _ & _ & ->) | (v & _ & _ & _ & ->)]]]
       | (s & _ & _ & [[_ ->] | (t & st1 & reply & w & _ & _ & _ & ->)])];
    now eexists _, _.
Qed.

Lemma statusCode_of_error (c : string) :
  In c errorCodes ->
  propertyOr [("INVALID_SUBDOMAIN", JsonNum 400);
              ("INVALID_SUBDOMAIN_FORMAT", JsonNum 400);
              ("TENANT_NOT_FOUND", JsonNum 404);
              ("TENANT_RESOLUTION_ERROR", JsonNum 500)] c (JsonNum 400)
  = JsonNum (statusOfCode c).
Proof.
  simpl. intros Hc. repeat destruct Hc as [<- | Hc]; try reflexivity. contradiction.
Qed.

(** X25: a preflight request (method OPTIONS) is answered with the CORS
    headers and status 200 without resolving a tenant: the state of the
    middleware is left as it was and no remote call is issued. *)
Theorem handler_options (req : ApiRequest) (res : Response) (st : St W) :
  method req = "OPTIONS" ->
  handler handleGetPhrases req (res, st) =
    (Normal tt,
     ({| resHeaders := resHeaders res ++ corsHeaders;
         resStatus := Some (JsonNum 200);
         resBody := resBody res;
         resEnded := true |}, st)).
Proof.
  intros Hm. unfold handler, bindN. rewrite setCorsHeaders_run, Hm. reflexivity.
Qed.

(** X26: when the tenant resolution of a request (not a preflight)
    fails, the route answers with the status that goes with the error
    code: 400 for INVALID_SUBDOMAIN and INVALID_SUBDOMAIN_FORMAT, 404
    for TENANT_NOT_FOUND, 500 for TENANT_RESOLUTION_ERROR; the body
    carries the code, the message, the details and a suggestion, and the
    phrase query is not run. *)
Theorem handler_tenant_error
    (req : ApiRequest) (res : Response) (st : St W)
    (r : Resolution) (st' : St W) (e : TenantError) :
  method req <> "OPTIONS" ->
  resolveTenant (request req) st = (Normal r, st') ->
  error r = Some e ->
  handler handleGetPhrases req (res, st) =
    (Normal tt,
     (answered (withCors res)
        (JsonNum (statusOfCode (code e)))
        (JsonObj [("error", JsonStr (code e));
                  ("message", JsonStr (message e));
                  ("details", JsonStr (details e));
                  ("suggestion", getTenantErrorSuggestion (code e))]),
      st')) /\
  In (statusOfCode (code e)) [400; 404; 500] /\
  exists text, getTenantErrorSuggestion (code e) = JsonStr text.
Proof.
  intros Hm R He.
  destruct (resolveTenant_error_shape _ _ _ _ _ R He) as [Ht Hcode].
  split; [|split].
  - unfold handler, bindN. rewrite setCorsHeaders_run.
    apply String.eqb_neq in Hm. rewrite Hm.
    unfold tryCatchN, liftApi. cbn [fst snd]. rewrite R. cbv beta iota.
    rewrite He. unfold handleTenantError, bindN, status, json, answered. cbn [fst snd].
    now rewrite (statusCode_of_error (code e) Hcode).
  - simpl in Hcode. repeat destruct Hcode as [<- | Hcode]; simpl; tauto.
  - simpl in Hcode. repeat destruct Hcode as [<- | Hcode];
      try (eexists; reflexivity). contradiction.
Qed.

(** X27: a request with another method than GET and OPTIONS is refused
    with status 405 only after its tenant has been resolved: the lookup
    and the context call are issued first, and the state is the one the
    resolution leaves. *)
Theorem handler_method_not_allowed
    (req : ApiRequest) (res : Response) (st : St W)
    (r : Resolution) (st' : St W) (t : TenantInfo) :
  method req <> "OPTIONS" ->
  method req <> "GET" ->
  resolveTenant (request req) st = (Normal r, st') ->
  tenant r = Some t ->
  id t <> "" ->
  handler handleGetPhrases req (res, st) =
    (Normal tt,
     (answered (withCors res) (JsonNum 405)
        (JsonObj [("error", JsonStr "Method not allowed");
                  ("message", JsonStr ("HTTP method " +:+ method req +:+
                                       " is not supported for this endpoint"));
                  ("allowedMethods", JsonArr [JsonStr "GET"; JsonStr "OPTIONS"])]),
      st')).
Proof.
  intros Hm Hg R Ht Hid.
  pose proof (resolveTenant_tenant_shape _ _ _ _ _ R Ht) as He.
  unfold handler, bindN. rewrite setCorsHeaders_run.
  apply String.eqb_neq in Hm, Hg. rewrite Hm.
  unfold tryCatchN, liftApi. cbn [fst snd]. rewrite R. cbv beta iota.
  rewrite He, Ht. unfold hasValidTenantContext. cbn [req_tenant req_tenantError slotOf].
  apply String.eqb_neq in Hid. cbn [truthy]. rewrite Hid. cbn [negb slotTruthy truthy].
  rewrite Hg. reflexivity.
Qed.

(** X28: on a response that has not been sent, and with a phrase query
    that leaves the response unsent whenever it throws, the route never
    throws; an exception thrown by the phrase query is answered with
    status 500 and the body of the last catch, whose tenantId is the id
    of the tenant property that the request carries when there is one,
    and "unknown" otherwise.  The two hypotheses keep every call of a
    method of the response on a response that has not been sent, where
    the methods of the source do not throw either. *)
Theorem handler_never_throws (req : ApiRequest) (res : Response) (st : St W) :
  resEnded res = false ->
  (forall t cfg st0 x out,
      resEnded (fst st0) = false ->
      handleGetPhrases req t cfg st0 = (Throw x, out) -> resEnded (fst out) = false) ->
  (exists out, handler handleGetPhrases req (res, st) = (Normal tt, out)) /\
  (forall r st' t x out,
      method req = "GET" ->
      resolveTenant (request req) st = (Normal r, st') ->
      tenant r = Some t ->
      id t <> "" ->
      handleGetPhrases req t (getTenantConfig (Some t) defaultConfig) (withCors res, st')
      = (Throw x, out) ->
      handler handleGetPhrases req (res, st) =
        (Normal tt,
         (answered (fst out) (JsonNum 500)
            (JsonObj [("error", JsonStr "Internal server error");
                    ("message", JsonStr "An unexpected error occurred while processing your request");
                    ("tenantId", JsonStr match tenantProperty req with
                                         | Holds t' => if truthy (JStr (id t')) then id t'
                                                       else "unknown"
                                         | _ => "unknown"
                                         end)]),
          snd out))).
Proof.
  intros Hfresh Hunsent. split.
  - unfold handler, bindN. rewrite setCorsHeaders_run.
    destruct (String.eqb (method req) "OPTIONS"); [now eexists|].
    unfold tryCatchN, liftApi. cbn [fst snd].
    destruct (resolveTenant_returns (request req) st) as (r & st' & ->).
    cbv beta iota.
    destruct (error r) as [e|], (tenant r) as [t|]; try (now eexists).
    destruct (negb (truthy (hasValidTenantContext _))); [now eexists|].
    destruct (String.eqb (method req) "GET"); [|now eexists].
    destruct (handleGetPhrases req t _ _) as [[[]|x] out]; now eexists.
  - intros r st' t x out Hg R Ht Hid Hthrow.
    pose proof (resolveTenant_tenant_shape _ _ _ _ _ R Ht) as He.
    unfold handler, bindN. rewrite setCorsHeaders_run, Hg.
    cbn [String.eqb Ascii.eqb Bool.eqb].
    unfold tryCatchN, liftApi. cbn [fst snd]. rewrite R. cbv beta iota.
    rewrite He, Ht. unfold hasValidTenantContext. cbn [req_tenant req_tenantError slotOf].
    apply String.eqb_neq in Hid. cbn [truthy]. rewrite Hid. cbn [negb slotTruthy truthy].
    fold (withCors res). rewrite Hthrow. reflexivity.
Qed.

End Handler.

Section Isolation.
Context {W : Type} `{Backend W}.

(** X29: the phrase query is run only for a GET request whose tenant
    has been resolved: for any other method, and whenever the resolution
    returns no tenant, the route does the same whatever the phrase query
    is. *)
Theorem handler_phrases_guarded
    (g1 g2 : ApiRequest -> TenantInfo -> gmap string ConfigValue -> N (@ApiState W) unit)
    (req : ApiRequest) (res : Response) (st : St W) :
  method req <> "GET" \/ tenant (match fst (resolveTenant (request req) st) with
                                 | Normal r => r
                                 | Throw _ => resolutionError
                                 end) = None ->
  handler g1 req (res, st) = handler g2 req (res, st).
Proof.
  intros Hguard. unfold handler, bindN. rewrite setCorsHeaders_run.
  destruct (String.eqb (method req) "OPTIONS"); [reflexivity|].
  unfold tryCatchN, liftApi. cbn [fst snd].
  destruct (resolveTenant_returns (request req) st) as (r & st' & R).
  rewrite R in *. cbn [fst] in Hguard. cbv beta iota.
  destruct (error r) as [e|], (tenant r) as [t|]; try reflexivity.
  destruct (negb (truthy (hasValidTenantContext _))); [reflexivity|].
  destruct Hguard as [Hg | Hn]; [|discriminate].
  apply String.eqb_neq in Hg. now rewrite Hg.
Qed.

End Isolation.

Lemma handler_options_witness :
  handler emptyPhrases (apiRequestFor "OPTIONS" "acme.example.com")
    (blankResponse, initial (worldAcme 0))
  = (Normal tt,
     ({| resHeaders := corsHeaders;
         resStatus := Some (JsonNum 200);
         resBody := None;
         resEnded := true |}, initial (worldAcme 0))).
Proof.
  refine (handler_options emptyPhrases (apiRequestFor "OPTIONS" "acme.example.com")
            blankResponse (initial (worldAcme 0)) _).
  reflexivity.
Defined.

Lemma handler_tenant_error_witness :
  handler emptyPhrases (apiRequestFor "GET" "ab.example.com")
    (blankResponse, initial (worldEmpty 0))
  = (Normal tt,
     (answered (withCors blankResponse) (JsonNum 404)
        (JsonObj [("error", JsonStr "TENANT_NOT_FOUND");
                  ("message", JsonStr "Tenant not found or inactive");
                  ("details", JsonStr "No active tenant found for subdomain: ab");
                  ("suggestion",
                   JsonStr "Please verify your subdomain is correct and your account is active. Contact support if this persists.")]),
      snd (resolveTenant (requestFor "ab.example.com") (initial (worldEmpty 0))))).
Proof.
  refine (proj1 (handler_tenant_error emptyPhrases
                   (apiRequestFor "GET" "ab.example.com") blankResponse
                   (initial (worldEmpty 0)) (tenantNotFound "ab")
                   (snd (resolveTenant (requestFor "ab.example.com")
                           (initial (worldEmpty 0))))
                   {| code := "TENANT_NOT_FOUND";
                      message := "Tenant not found or inactive";
                      details := "No active tenant found for subdomain: ab" |}
                   _ _ _)).
  - discriminate.
  - reflexivity.
  - reflexivity.
Defined.

Lemma handler_method_not_allowed_witness :
  handler emptyPhrases (apiRequestFor "POST" "acme.example.com")
    (blankResponse, initial (worldAcme 0))
  = (Normal tt,
     (answered (withCors blankResponse) (JsonNum 405)
        (JsonObj [("error", JsonStr "Method not allowed");
                  ("message", JsonStr "HTTP method POST is not supported for this endpoint");
                  ("allowedMethods", JsonArr [JsonStr "GET"; JsonStr "OPTIONS"])]),
      snd (resolveTenant (requestFor "acme.example.com") (initial (worldAcme 0))))).
Proof.
  refine (handler_method_not_allowed emptyPhrases
            (apiRequestFor "POST" "acme.example.com") blankResponse
            (initial (worldAcme 0))
            {| error := None; tenant := Some (tenantInfoOf "acme" acmeRow) |}
            (snd (resolveTenant (requestFor "acme.example.com") (initial (worldAcme 0))))
            (tenantInfoOf "acme" acmeRow) _ _ _ _ _).
  - discriminate.
  - discriminate.
  - reflexivity.
  - reflexivity.
  - discriminate.
Defined.

Lemma handler_never_throws_witness :
  (exists out,
     handler failingPhrases (apiRequestFor "GET" "acme.example.com")
       (blankResponse, initial (worldAcme 0)) = (Normal tt, out)) /\
  handler failingPhrases (apiRequestFor "GET" "acme.example.com")
    (blankResponse, initial (worldAcme 0))
  = (Normal tt,
     (answered (withCors blankResponse) (JsonNum 500)
        (JsonObj [("error", JsonStr "Internal server error");
                  ("message", JsonStr "An unexpected error occurred while processing your request");
                  ("tenantId", JsonStr "unknown")]),
      snd (resolveTenant (requestFor "acme.example.com") (initial (worldAcme 0))))).
Proof.
  destruct (handler_never_throws failingPhrases
              (apiRequestFor "GET" "acme.example.com") blankResponse
              (initial (worldAcme 0)))
    as [Hret H500].
  - reflexivity.
  - intros t cfg st0 x out Hst0 E. injection E as _ <-. exact Hst0.
  - split; [exact Hret|].
    refine (H500 {| error := None; tenant := Some (tenantInfoOf "acme" acmeRow) |}
                     (snd (resolveTenant (requestFor "acme.example.com")
                             (initial (worldAcme 0))))
                     (tenantInfoOf "acme" acmeRow) "query failed"
                     (withCors blankResponse,
                      snd (resolveTenant (requestFor "acme.example.com")
                             (initial (worldAcme 0))))
                     _ _ _ _ _).
    + reflexivity.
    + reflexivity.
    + reflexivity.
    + discriminate.
    + reflexivity.
Defined.

Lemma handler_phrases_guarded_witness :
  handler emptyPhrases (apiRequestFor "GET" "go.example.com")
    (blankResponse, initial (worldSuspended 0))
  = handler (fun _ _ _ => throwN "no phrases") (apiRequestFor "GET" "go.example.com")
      (blankResponse, initial (worldSuspended 0)).
Proof.
  refine (handler_phrases_guarded emptyPhrases (fun _ _ _ => throwN "no phrases")
            (apiRequestFor "GET" "go.example.com") blankResponse
            (initial (worldSuspended 0)) _).
  right. reflexivity.
Defined.

End PhrasesFacts.
